(** * Self-Attention Demo: the attention matrix and the sentence tokens

    A shallow embedding of [streamlit_app.py]: the example catalog
    [EXAMPLES], the matrix built inside [create_simple_heatmap], and the
    word classification loop of [main].

    Python values are modelled as follows.
    - [str] is [string]; [==] and [in] on strings are Leibniz equality.
    - [str.lower] is a parameter [lower] of every definition that calls it,
      so the general theorems hold for whatever lowering function is used;
      [str_lower] is its instance on ASCII text, which covers the catalog.
    - [list] is [list]; a [dict] with string keys is a [gmap string _].
    - a numpy float64 array of shape (n, n) is a [list (list float)] over
      the kernel's binary64 floats, so that [0.1] and [0.8] are the same
      rounded constants the interpreter stores.
    - an exception is a constructor of [exception]; code that may raise
      returns a [result]. *)

From Stdlib Require Import Floats.PrimFloat Strings.Ascii.
From stdpp Require Import ssreflect gmap strings list fin_maps.

Set Warnings "-inexact-float,-rewrite-rw".
Set Default Proof Using "Type".

(** ** Exceptions and results *)

Inductive exception :=
| ValueError   (* list.index(x): x not in list *)
| IndexError   (* ndarray subscript out of bounds *)
| KeyError     (* dict subscript with a missing key *)
| TypeError.   (* an operation applied to an object of the wrong type *)

Inductive result (A : Type) :=
| Ok (a : A)
| Raise (e : exception).
Arguments Ok {A} a.
Arguments Raise {A} e.

#[global] Instance exception_eq_dec : EqDecision exception.
Proof. solve_decision. Defined.

#[global] Instance result_ret : MRet result := λ A a, Ok a.
#[global] Instance result_bind : MBind result := λ A B f r,
  match r with
  | Ok a => f a
  | Raise e => Raise e
  end.
#[global] Instance result_fmap : FMap result := λ A B f r,
  match r with
  | Ok a => Ok (f a)
  | Raise e => Raise e
  end.

Definition is_Ok {A} (r : result A) : Prop := ∃ a, r = Ok a.

(** ** Built-in operations used by the program *)

(** [words.index(x)]: the position of the first item equal to [x];
    [ValueError] when there is none. *)
Fixpoint index (words : list string) (x : string) : result nat :=
  match words with
  | [] => Raise ValueError
  | w :: rest => if decide (w = x) then Ok 0 else S <$> index rest x
  end.

(** [d[k]] on a dict. *)
Definition getitem {V} (d : gmap string V) (k : string) : result V :=
  match d !! k with
  | Some v => Ok v
  | None => Raise KeyError
  end.

(** [np.full((rows, cols), v)]. *)
Definition full (rows cols : nat) (v : float) : list (list float) :=
  replicate rows (replicate cols v).

(** [np.fill_diagonal(matrix, v)] on a two-dimensional array: cell [i][i]
    of every row [i] that has a column [i]. *)
Definition fill_diagonal (matrix : list (list float)) (v : float)
  : list (list float) :=
  imap (λ i row, <[i := v]> row) matrix.

(** [matrix[i][j] = v]: numpy checks both subscripts. *)
Definition setitem (matrix : list (list float)) (i j : nat) (v : float)
  : result (list (list float)) :=
  match matrix !! i with
  | None => Raise IndexError
  | Some row =>
      if decide (j < length row)
      then Ok (<[i := <[j := v]> row]> matrix)
      else Raise IndexError
  end.

(** Reading [matrix[i][j]]. *)
Definition cell (matrix : list (list float)) (i j : nat) : option float :=
  matrix !! i ≫= λ row, row !! j.

(** The shape (n, n). *)
Definition square (n : nat) (matrix : list (list float)) : Prop :=
  length matrix = n ∧ ∀ row, row ∈ matrix → length row = n.

(** [str.lower] on ASCII text. *)
Definition ascii_lower (c : ascii) : ascii :=
  let n := nat_of_ascii c in
  if (65 <=? n) && (n <=? 90) then ascii_of_nat (n + 32) else c.

Fixpoint str_lower (s : string) : string :=
  match s with
  | EmptyString => EmptyString
  | String c rest => String (ascii_lower c) (str_lower rest)
  end.

(** ** [create_simple_heatmap] (lines 75-100) *)

(** The figure handed to the charting library: [px.imshow(matrix, x=words,
    y=words, title=...)] followed by [update_layout(height=400, width=500)]. *)
Record figure := Figure {
  fig_z : list (list float);
  fig_x : list string;
  fig_y : list string;
  fig_title : string;
  fig_height : nat;
  fig_width : nat
}.

Section builder.
Variable lower : string → string.

(** Lines 86-89: the loop over the attended words. *)
Fixpoint fill_scores (words : list string) (selected_idx : nat)
    (targets : list string) (matrix : list (list float))
  : result (list (list float)) :=
  match targets with
  | [] => Ok matrix
  | target_word :: rest =>
      if decide (target_word ∈ words) then
        target_idx ← index words target_word;
        matrix' ← setitem matrix selected_idx target_idx 0.8%float;
        fill_scores words selected_idx rest matrix'
      else fill_scores words selected_idx rest matrix
  end.

(** Lines 77-89: the matrix the figure is drawn from. *)
Definition attention_matrix (words : list string) (selected_word : string)
    (attention_dict : gmap string (list string))
  : result (list (list float)) :=
  let n := length words in
  let matrix := full n n 0.1%float in
  let matrix := fill_diagonal matrix 1%float in
  if decide (is_Some (attention_dict !! lower selected_word)) then
    selected_idx ← index words selected_word;
    targets ← getitem attention_dict (lower selected_word);
    fill_scores words selected_idx targets matrix
  else Ok matrix.

Definition create_simple_heatmap (words : list string)
    (selected_word : string) (attention_dict : gmap string (list string))
  : result figure :=
  matrix ← attention_matrix words selected_word attention_dict;
  mret (Figure matrix words words
          ("Attention Pattern for '" +:+ selected_word +:+ "'") 400 500).

End builder.

(** ** The sentence loop of [main] (lines 118-135) *)

(** The three styles a word is displayed in. *)
Inductive visual_class := selected | attending | neutral.

#[global] Instance visual_class_eq_dec : EqDecision visual_class.
Proof. solve_decision. Defined.

(** The value of [css_class] on each branch of lines 129-134. *)
Definition css_class (c : visual_class) : string :=
  match c with
  | selected => "word-box selected-word"
  | attending => "word-box attending-word"
  | neutral => "word-box"
  end.

(** Lines 129-134: the branch taken for one word. *)
Definition classify (selected_word : string) (attending_words : list string)
    (word : string) : visual_class :=
  if decide (word = selected_word) then selected
  else if decide (word ∈ attending_words) then attending
  else neutral.

Definition dquote : string := String (ascii_of_nat 34) EmptyString.

(** Line 135: the markup appended for one word. *)
Definition span (c : visual_class) (word : string) : string :=
  "<span class=" +:+ dquote +:+ css_class c +:+ dquote +:+ ">"
    +:+ word +:+ "</span> ".

(** Lines 125-135: the [for word in words] loop, accumulating the markup. *)
Definition sentence_html (words : list string) (selected_word : string)
    (attending_words : list string) : string :=
  foldl (λ html word,
           html +:+ span (classify selected_word attending_words word) word)
        "" words.

(** The same loop, accumulating the (word, class) pair of each iteration
    instead of its markup. *)
Definition sentence_tokens (words : list string) (selected_word : string)
    (attending_words : list string) : list (string * visual_class) :=
  foldl (λ tokens word,
           tokens ++ [(word, classify selected_word attending_words word)])
        [] words.

Definition is_selected (token : string * visual_class) : Prop :=
  token.2 = selected.

#[global] Instance is_selected_dec token : Decision (is_selected token).
Proof. unfold is_selected. apply _. Defined.

Section controller.
Variable lower : string → string.

(** Line 118. *)
Definition available_words (words : list string)
    (attention_dict : gmap string (list string)) : list string :=
  filter (λ w, is_Some (attention_dict !! lower w)) words.

(** Line 126: [attention_dict.get(selected_word.lower(), [])]. *)
Definition attending_words (selected_word : string)
    (attention_dict : gmap string (list string)) : list string :=
  default [] (attention_dict !! lower selected_word).

(** What one run of [main] displays for a chosen word: the sentence tokens
    and the heatmap panel, where lines 153-158 turn an exception of
    [create_simple_heatmap] into a message. *)
Inductive panel :=
| plotly_chart (fig : figure)
| visualization_error (e : exception).

Definition heatmap_panel (words : list string) (selected_word : string)
    (attention_dict : gmap string (list string)) : panel :=
  match create_simple_heatmap lower words selected_word attention_dict with
  | Ok fig => plotly_chart fig
  | Raise e => visualization_error e
  end.

End controller.

(** ** The catalog (lines 54-73) *)

Record example := Example {
  words : list string;
  attention : gmap string (list string)
}.

Definition Business : example :=
  Example
    ["Our"; "company"; "reported"; "strong"; "quarterly"; "profits"; "and";
     "the"; "stock"; "price"; "surged"]
    (<["stock" := ["company"; "profits"; "surged"] ]>
      (<["profits" := ["company"; "quarterly"; "strong"] ]>
        (<["surged" := ["profits"; "stock"; "strong"] ]>
          (<["company" := ["Our"; "profits"; "stock"] ]> ∅)))).

Definition Technology : example :=
  Example
    ["The"; "new"; "AI"; "model"; "processes"; "language"; "better"; "than";
     "previous"; "versions"]
    (<["model" := ["AI"; "new"; "processes"] ]>
      (<["processes" := ["model"; "language"; "AI"] ]>
        (<["language" := ["processes"; "model"; "better"] ]>
          (<["AI" := ["model"; "new"; "processes"] ]> ∅)))).

(** The dict [EXAMPLES], in insertion order (the order of the example
    selector). *)
Definition EXAMPLES : list (string * example) :=
  [("Business", Business); ("Technology", Technology)].

(** ** The same code over a store of Python objects

    [words], [attention_dict] and [attending_words] are references to
    objects that the caller keeps; the matrix is an array allocated by
    [np.full] and updated in place.  Every use of a name reads the store as
    it is at that moment. *)

(** The objects the program handles.  The lists stored as values of a dict
    are kept by value: the program only reads them. *)
Inductive object :=
| PyList (items : list string)
| PyDict (entries : gmap string (list string))
| NdArray (data : list (list float)).

Record state (A : Type) := State {
  run : gmap nat object → result A * gmap nat object
}.
Arguments State {A} run.
Arguments run {A} s σ.

#[global] Instance state_ret : MRet state := λ A a, State (λ σ, (Ok a, σ)).
#[global] Instance state_bind : MBind state := λ A B f m,
  State (λ σ,
    match run m σ with
    | (Ok a, σ') => run (f a) σ'
    | (Raise e, σ') => (Raise e, σ')
    end).

Module Store.

(** [len(l)] *)
Definition list_len (l : nat) : state nat :=
  State (λ σ,
    match σ !! l with
    | Some (PyList items) => (Ok (length items), σ)
    | _ => (Raise TypeError, σ)
    end).

(** The items a [for] loop over [l] visits. *)
Definition list_items (l : nat) : state (list string) :=
  State (λ σ,
    match σ !! l with
    | Some (PyList items) => (Ok items, σ)
    | _ => (Raise TypeError, σ)
    end).

(** [l.index(x)] *)
Definition list_index (l : nat) (x : string) : state nat :=
  State (λ σ,
    match σ !! l with
    | Some (PyList items) => (index items x, σ)
    | _ => (Raise TypeError, σ)
    end).

(** [x in l] *)
Definition list_contains (l : nat) (x : string) : state bool :=
  State (λ σ,
    match σ !! l with
    | Some (PyList items) => (Ok (bool_decide (x ∈ items)), σ)
    | _ => (Raise TypeError, σ)
    end).

(** [k in d] *)
Definition dict_contains (d : nat) (k : string) : state bool :=
  State (λ σ,
    match σ !! d with
    | Some (PyDict entries) => (Ok (bool_decide (is_Some (entries !! k))), σ)
    | _ => (Raise TypeError, σ)
    end).

(** [d[k]] *)
Definition dict_getitem (d : nat) (k : string) : state (list string) :=
  State (λ σ,
    match σ !! d with
    | Some (PyDict entries) => (getitem entries k, σ)
    | _ => (Raise TypeError, σ)
    end).

(** [np.full((rows, cols), v)]: a new array at an unused address. *)
Definition np_full (rows cols : nat) (v : float) : state nat :=
  State (λ σ,
    let a := fresh (dom σ) in (Ok a, <[a := NdArray (full rows cols v)]> σ)).

(** [np.fill_diagonal(a, v)], in place. *)
Definition np_fill_diagonal (a : nat) (v : float) : state unit :=
  State (λ σ,
    match σ !! a with
    | Some (NdArray data) => (Ok (), <[a := NdArray (fill_diagonal data v)]> σ)
    | _ => (Raise TypeError, σ)
    end).

(** [a[i][j] = v], in place. *)
Definition ndarray_setitem (a : nat) (i j : nat) (v : float) : state unit :=
  State (λ σ,
    match σ !! a with
    | Some (NdArray data) =>
        match setitem data i j v with
        | Ok data' => (Ok (), <[a := NdArray data']> σ)
        | Raise e => (Raise e, σ)
        end
    | _ => (Raise TypeError, σ)
    end).

Fixpoint for_each {A} (items : list A) (body : A → state unit) : state unit :=
  match items with
  | [] => mret ()
  | x :: rest => _ ← body x; for_each rest body
  end.

Section with_lower.
Variable lower : string → string.

(** Lines 77-89 of [create_simple_heatmap]; the result is the address of
    the matrix. *)
Definition attention_matrix (words attention_dict : nat)
    (selected_word : string) : state nat :=
  n ← list_len words;
  matrix ← np_full n n 0.1%float;
  _ ← np_fill_diagonal matrix 1%float;
  has_key ← dict_contains attention_dict (lower selected_word);
  if has_key : bool then
    selected_idx ← list_index words selected_word;
    targets ← dict_getitem attention_dict (lower selected_word);
    _ ← for_each targets (λ target_word,
          known ← list_contains words target_word;
          if known : bool then
            target_idx ← list_index words target_word;
            ndarray_setitem matrix selected_idx target_idx 0.8%float
          else mret ());
    mret matrix
  else mret matrix.

End with_lower.

(** Lines 128-135 of [main], one iteration at a time. *)
Fixpoint tokens_loop (attending_words : nat) (selected_word : string)
    (items : list string) (tokens : list (string * visual_class))
  : state (list (string * visual_class)) :=
  match items with
  | [] => mret tokens
  | word :: rest =>
      c ← (if decide (word = selected_word) then mret selected
           else
             member ← list_contains attending_words word;
             mret (if member : bool then attending else neutral));
      tokens_loop attending_words selected_word rest (tokens ++ [(word, c)])
  end.

Definition sentence_tokens (words attending_words : nat)
    (selected_word : string) : state (list (string * visual_class)) :=
  items ← list_items words;
  tokens_loop attending_words selected_word items [].

End Store.

(** ** [main] (lines 102-192)

    One run of the script, for the values that its two selectors return.
    Every Streamlit call is recorded, in order, as the widget it displays
    and the container it is displayed in.  [st.columns(2)] and the [with]
    blocks only choose the container.  The run stops at the first exception
    that no handler catches. *)

Inductive container :=
| page
| sidebar
| col1
| col2
| expander (label : string).

Inductive widget :=
| st_markdown (body : string) (unsafe_allow_html : bool)
| st_header (text : string)
| st_subheader (text : string)
| st_selectbox (label : string) (options : list string)
| st_plotly_chart (fig : figure) (use_container_width : bool)
| st_error (text : string)
| st_info (text : string)
| st_write (text : string).

(** What can end a run: [None.lower()] raises [AttributeError]; any other
    exception is one of [exception]. *)
Inductive script_exception :=
| AttributeError
| Uncaught (e : exception).

(** [sep.join(items)] *)
Fixpoint join (sep : string) (items : list string) : string :=
  match items with
  | [] => ""
  | [item] => item
  | item :: rest => item +:+ sep +:+ join sep rest
  end.

(** [EXAMPLES[name]]: the entries of a dict have distinct keys. *)
Fixpoint examples_getitem (examples : list (string * example)) (name : string)
  : result example :=
  match examples with
  | [] => Raise KeyError
  | (key, data) :: rest =>
      if decide (key = name) then Ok data else examples_getitem rest name
  end.

(** Line 104. *)
Definition header_html : string :=
  "<h1 class=" +:+ dquote +:+ "main-header" +:+ dquote +:+ ">🧠 Self-Attention Demo</h1>".

(** Lines 170-177. *)
Definition why_this_matters : string :=
  "
    **Self-attention is the breakthrough behind ChatGPT, BERT, and modern AI:**
    
    - 🚀 **Parallel Processing**: All words analyzed simultaneously
    - 🎯 **Long-range Connections**: Links words across entire documents  
    - 💡 **Context Understanding**: Knows " +:+ dquote +:+ "stock surged" +:+ dquote +:+ " relates to " +:+ dquote +:+ "company profits" +:+ dquote +:+ "
    - 🔧 **Business Applications**: Customer service, document analysis, translation
    ".

(** Lines 181-192. *)
Definition how_does_this_work : string :=
  "
        **The Simple Version:**
        1. Each word looks at every other word
        2. Calculates how " +:+ dquote +:+ "relevant" +:+ dquote +:+ " each word is
        3. Focuses more on highly relevant words
        4. Combines information based on relevance scores
        
        **Why it's powerful:**
        - No information loss over long distances
        - Finds relationships humans might miss
        - Processes everything in parallel (fast!)
        ".

Section script.
Variable lower : string → string.
(** [str(e)], the text of an exception. *)
Variable str : exception → string.

(** Lines 140-146. *)
Definition insight_box (selected_word : string)
    (attending_words : list string) : list (container * widget) :=
  match attending_words with
  | [] => []
  | _ :: _ =>
      [(page,
        st_markdown
          (("
        <div class=" +:+ dquote +:+ "insight-box" +:+ dquote +:+ ">
        💡 <strong>" +:+ dquote +:+ "") +:+ selected_word +:+
           ("" +:+ dquote +:+ "</strong> pays attention to: <strong>") +:+ join ", " attending_words +:+
           ("</strong><br>
        These words provide crucial context for understanding " +:+ dquote +:+ "") +:+ selected_word +:+
           ("" +:+ dquote +:+ " in this sentence.
        </div>
        "))
          true)]
  end.

(** Lines 153-158: the chart, or the two messages of the handler. *)
Definition heatmap_elements (p : panel) : list (container * widget) :=
  match p with
  | plotly_chart fig => [(col1, st_plotly_chart fig true)]
  | visualization_error e =>
      [(col1, st_error ("Visualization error: " +:+ str e));
       (col1, st_info "The demo is working, just visualization issues.")]
  end.

(** Lines 162-166. *)
Definition attention_list (attending_words : list string)
  : list (container * widget) :=
  match attending_words with
  | [] => [(col2, st_write "No strong attention patterns for this word.")]
  | _ :: _ =>
      (λ word, (col2, st_write ("• **" +:+ word +:+ "** - High attention")))
        <$> attending_words
  end.

Definition main (selected_example : string) (selected_word : option string)
  : list (container * widget) * option script_exception :=
  let out :=
    [(page, st_markdown header_html true);
     (page, st_markdown "**Understand how AI processes language context**" false);
     (sidebar, st_header "🎮 Controls");
     (sidebar, st_selectbox "Choose Example:" (EXAMPLES.*1))] in
  match examples_getitem EXAMPLES selected_example with
  | Raise e => (out, Some (Uncaught e))
  | Ok current_data =>
      let words := words current_data in
      let attention_dict := attention current_data in
      let available_words := available_words lower words attention_dict in
      let out :=
        out ++ [(sidebar, st_selectbox "Select Word:" available_words);
                (page, st_subheader "📝 Interactive Sentence")] in
      match selected_word with
      | None => (out, Some AttributeError)
      | Some selected_word =>
          let attending_words :=
            attending_words lower selected_word attention_dict in
          let out :=
            out ++
            [(page,
              st_markdown (sentence_html words selected_word attending_words)
                true)] ++
            insight_box selected_word attending_words ++
            [(col1, st_subheader "🔥 Attention Heatmap")] ++
            heatmap_elements
              (heatmap_panel lower words selected_word attention_dict) ++
            [(col2, st_subheader "📊 Attention List")] ++
            attention_list attending_words ++
            [(page, st_subheader "💼 Why This Matters");
             (page, st_markdown why_this_matters false);
             (expander "🤔 How does this work?", st_markdown how_does_this_work false)] in
          (out, None)
      end
  end.

End script.

(** ** Vocabulary of the properties *)

#[global] Instance result_eq_dec {A} `{EqDecision A} : EqDecision (result A).
Proof. solve_decision. Defined.

(** Column [j] is the first-occurrence index of some attended word. *)
Definition attended_col (words targets : list string) (j : nat) : Prop :=
  Exists (λ target_word, index words target_word = Ok j) targets.

#[global] Instance attended_col_dec words targets j :
  Decision (attended_col words targets j).
Proof. unfold attended_col. apply _. Defined.

(** Cell [i][j] is written by the loop of lines 86-89: [i] is the index of
    the selected word and [j] the index of an attended word. *)
Definition attended_cell (words : list string) (selected_word : string)
    (targets : list string) (i j : nat) : Prop :=
  index words selected_word = Ok i ∧ attended_col words targets j.

(** The array an address returned by the builder refers to. *)
Definition deref (σ : gmap nat object) (r : result nat)
  : result (list (list float)) :=
  a ← r;
  match σ !! a with
  | Some (NdArray data) => Ok data
  | _ => Raise TypeError
  end.

(** A store holding the Business sentence, its attention mapping and the
    attended list of "stock". *)
Definition business_store : gmap nat object :=
  <[0 := PyList (words Business)]>
    (<[1 := PyDict (attention Business)]>
      (<[2 := PyList ["company"; "profits"; "surged"] ]> ∅)).

(** Finds the disjunct of the goal that holds by reflexivity. *)
Ltac find_disjunct :=
  first [ reflexivity | left; find_disjunct | right; find_disjunct ].

(** ** Lists and arrays *)

Lemma index_Ok words x i :
  index words x = Ok i →
  words !! i = Some x ∧ ∀ j, j < i → words !! j ≠ Some x.
Proof.
  revert i. induction words as [|w rest IH]; intros i; simpl; [done|].
  case_decide as Hw.
  - intros [= <-]. subst. split; [done|]. intros j Hj. lia.
  - destruct (index rest x) as [k|e] eqn:Hk; simpl; [|done].
    intros [= <-]. destruct (IH k eq_refl) as [Hat Hfirst]. split; [done|].
    intros [|j] Hj; simpl; [congruence|]. apply Hfirst. lia.
Qed.

Lemma index_lt words x i : index words x = Ok i → i < length words.
Proof. intros [Hat _]%index_Ok. by eapply lookup_lt_Some. Qed.

Lemma index_elem_of words x : x ∈ words → is_Ok (index words x).
Proof.
  induction words as [|w rest IH]; [by intros ?%elem_of_nil|].
  intros [->|Hin]%elem_of_cons; simpl.
  - rewrite decide_True; [by eexists|done].
  - case_decide; [by eexists|]. destruct (IH Hin) as [k ->]. by eexists.
Qed.

Lemma index_not_elem_of words x : x ∉ words → index words x = Raise ValueError.
Proof.
  induction words as [|w rest IH]; [done|].
  intros [Hne Hnin]%not_elem_of_cons; simpl.
  rewrite decide_False; [|done]. by rewrite IH.
Qed.

Lemma cell_Some_lt n matrix i j v :
  square n matrix → cell matrix i j = Some v → i < n ∧ j < n.
Proof.
  intros [Hlen Hrows]. unfold cell.
  destruct (matrix !! i) as [row|] eqn:Hrow; simpl; [|done].
  intros Hv. split.
  - rewrite -Hlen. by eapply lookup_lt_Some.
  - rewrite -(Hrows row); [by eapply lookup_lt_Some|].
    apply list_elem_of_lookup. eauto.
Qed.

Lemma square_full n v : square n (full n n v).
Proof.
  split; [apply length_replicate|].
  intros row [-> _]%elem_of_replicate. apply length_replicate.
Qed.

Lemma cell_full n v i j : i < n → j < n → cell (full n n v) i j = Some v.
Proof.
  intros Hi Hj. unfold cell, full.
  rewrite lookup_replicate_2; [|done]. simpl. by apply lookup_replicate_2.
Qed.

Lemma square_fill_diagonal n matrix v :
  square n matrix → square n (fill_diagonal matrix v).
Proof.
  intros [Hlen Hrows]. split; [by rewrite /fill_diagonal length_imap|].
  intros row [i Hrow]%list_elem_of_lookup.
  rewrite /fill_diagonal list_lookup_imap in Hrow.
  destruct (matrix !! i) as [row0|] eqn:Hrow0; simplify_eq/=.
  rewrite length_insert. apply Hrows, list_elem_of_lookup. eauto.
Qed.

Lemma cell_fill_diagonal n matrix v i j :
  square n matrix → i < n → j < n →
  cell (fill_diagonal matrix v) i j =
    if decide (i = j) then Some v else cell matrix i j.
Proof.
  intros [Hlen Hrows] Hi Hj. unfold cell, fill_diagonal.
  rewrite list_lookup_imap.
  destruct (lookup_lt_is_Some_2 matrix i) as [row Hrow]; [lia|].
  rewrite Hrow. simpl.
  assert (length row = n) as Hrowlen.
  { apply Hrows, list_elem_of_lookup. eauto. }
  case_decide as Hij.
  - subst j. apply list_lookup_insert_eq. lia.
  - by apply list_lookup_insert_ne.
Qed.

Lemma setitem_spec n matrix i j v :
  square n matrix → i < n → j < n →
  ∃ matrix', setitem matrix i j v = Ok matrix' ∧ square n matrix' ∧
    ∀ i' j', cell matrix' i' j' =
      if decide (i' = i ∧ j' = j) then Some v else cell matrix i' j'.
Proof.
  intros [Hlen Hrows] Hi Hj. unfold setitem.
  destruct (lookup_lt_is_Some_2 matrix i) as [row Hrow]; [lia|].
  assert (length row = n) as Hrowlen.
  { apply Hrows, list_elem_of_lookup. eauto. }
  rewrite Hrow decide_True; [|lia].
  eexists. split; [done|]. split.
  - split; [by rewrite length_insert|].
    intros r [k Hr]%list_elem_of_lookup.
    destruct (decide (k = i)) as [->|Hne].
    + rewrite list_lookup_insert_eq in Hr; [|lia]. simplify_eq.
      by rewrite length_insert.
    + rewrite list_lookup_insert_ne in Hr; [|done].
      apply Hrows, list_elem_of_lookup. eauto.
  - intros i' j'. unfold cell.
    destruct (decide (i' = i)) as [->|Hne].
    + rewrite list_lookup_insert_eq; [|lia]. rewrite Hrow. simpl.
      destruct (decide (j' = j)) as [->|Hnej].
      * rewrite decide_True; [|done]. apply list_lookup_insert_eq. lia.
      * rewrite decide_False; [|by intros [_ ?]]. by apply list_lookup_insert_ne.
    + rewrite list_lookup_insert_ne; [|done].
      rewrite decide_False; [done|by intros [? _]].
Qed.

(** ** The loop over the attended words *)

Lemma fill_scores_app words si l1 l2 matrix :
  fill_scores words si (l1 ++ l2) matrix =
    fill_scores words si l1 matrix ≫= fill_scores words si l2.
Proof.
  revert matrix. induction l1 as [|t l1 IH]; intros matrix; simpl; [done|].
  case_decide; [|apply IH].
  destruct (index words t) as [tj|e]; simpl; [|done].
  destruct (setitem matrix si tj _) as [matrix'|e]; simpl; [apply IH|done].
Qed.

Lemma fill_scores_spec words si targets matrix :
  square (length words) matrix → si < length words →
  ∃ matrix', fill_scores words si targets matrix = Ok matrix' ∧
    square (length words) matrix' ∧
    (∀ j, attended_col words targets j → cell matrix' si j = Some 0.8%float) ∧
    (∀ i j, ¬ (i = si ∧ attended_col words targets j) →
            cell matrix' i j = cell matrix i j).
Proof.
  intros Hsq Hsi. revert matrix Hsq.
  induction targets as [|t rest IH]; intros matrix Hsq; simpl.
  { eexists. split; [done|]. split; [done|]. split; [|done].
    by intros j ?%Exists_nil. }
  case_decide as Hin.
  - destruct (index_elem_of _ _ Hin) as [tj Htj]. rewrite Htj. simpl.
    destruct (setitem_spec _ matrix si tj 0.8%float Hsq Hsi (index_lt _ _ _ Htj))
      as (matrix1 & -> & Hsq1 & Hcell1). simpl.
    destruct (IH matrix1 Hsq1) as (matrix' & -> & Hsq' & Hatt & Hframe).
    exists matrix'. split; [done|]. split; [done|]. split.
    + intros j Hj. destruct (decide (attended_col words rest j)) as [Hr|Hr].
      { by apply Hatt. }
      apply Exists_cons in Hj as [Hj|Hj]; [|done].
      rewrite Hframe; [|by intros [_ ?]].
      rewrite Hcell1 decide_True; [done|]. split; [done|congruence].
    + intros i j Hij. rewrite Hframe.
      2:{ intros [-> Hj]. apply Hij. split; [done|]. by apply Exists_cons_tl. }
      rewrite Hcell1 decide_False; [done|].
      intros [-> ->]. apply Hij. split; [done|]. by apply Exists_cons_hd.
  - destruct (IH matrix Hsq) as (matrix' & -> & Hsq' & Hatt & Hframe).
    exists matrix'. split; [done|]. split; [done|]. split.
    + intros j [Hj|Hj]%Exists_cons; [|by apply Hatt].
      destruct Hin. apply index_Ok in Hj as [Hj _].
      apply list_elem_of_lookup. eauto.
    + intros i j Hij. apply Hframe. intros [-> Hj]. apply Hij.
      split; [done|]. by apply Exists_cons_tl.
Qed.

Lemma attended_col_iff words targets j :
  attended_col words targets j ↔
    ∃ t, t ∈ targets ∧ index words t = Ok j.
Proof. unfold attended_col. rewrite Exists_exists. naive_solver. Qed.

Lemma attended_col_word words targets j :
  attended_col words targets j → ∃ t, t ∈ targets ∧ words !! j = Some t.
Proof.
  intros (t & Hin & Hj)%attended_col_iff. apply index_Ok in Hj as [Hj _]. eauto.
Qed.

(** ** The matrix *)

Section matrix.
Variable lower : string → string.

Lemma attention_matrix_no_key words sel att :
  att !! lower sel = None →
  attention_matrix lower words sel att =
    Ok (fill_diagonal (full (length words) (length words) 0.1%float) 1%float).
Proof.
  intros Hkey. unfold attention_matrix. simpl.
  rewrite decide_False; [done|]. rewrite Hkey. by intros [? ?].
Qed.

Lemma attention_matrix_key words sel att targets :
  att !! lower sel = Some targets →
  attention_matrix lower words sel att =
    index words sel ≫= λ si,
      fill_scores words si targets
        (fill_diagonal (full (length words) (length words) 0.1%float) 1%float).
Proof.
  intros Hkey. unfold attention_matrix, getitem. simpl.
  rewrite decide_True; [by rewrite Hkey|]. by rewrite Hkey.
Qed.

Lemma base_cell n i j :
  i < n → j < n →
  cell (fill_diagonal (full n n 0.1%float) 1%float) i j =
    Some (if decide (i = j) then 1%float else 0.1%float).
Proof.
  intros Hi Hj.
  rewrite (cell_fill_diagonal n); [|apply square_full|done|done].
  case_decide; [done|]. by apply cell_full.
Qed.

(** The matrix of a selected word that is in the sentence and has an entry
    in the attention mapping, cell by cell. *)
Lemma attention_matrix_spec words sel att targets :
  sel ∈ words → att !! lower sel = Some targets →
  ∃ matrix si,
    attention_matrix lower words sel att = Ok matrix ∧
    index words sel = Ok si ∧
    square (length words) matrix ∧
    (∀ j, attended_col words targets j → cell matrix si j = Some 0.8%float) ∧
    (∀ i j, i < length words → j < length words →
       ¬ (i = si ∧ attended_col words targets j) →
       cell matrix i j = Some (if decide (i = j) then 1%float else 0.1%float)).
Proof.
  intros Hin Hkey. rewrite (attention_matrix_key _ _ _ _ Hkey).
  destruct (index_elem_of _ _ Hin) as [si Hsi]. rewrite Hsi. simpl.
  destruct (fill_scores_spec words si targets
              (fill_diagonal (full (length words) (length words) 0.1%float)
                 1%float))
    as (matrix & Hrun & Hsq & Hatt & Hframe).
  { apply square_fill_diagonal, square_full. }
  { by eapply index_lt. }
  exists matrix, si. repeat split; try done; try apply Hsq.
  intros i j Hi Hj Hij. rewrite Hframe; [by apply base_cell|done].
Qed.

End matrix.

(** ** The sentence tokens *)

Lemma sentence_tokens_map words sel att :
  sentence_tokens words sel att = (λ word, (word, classify sel att word)) <$> words.
Proof.
  unfold sentence_tokens.
  assert (∀ acc, foldl (λ tokens word, tokens ++ [(word, classify sel att word)])
                   acc words
                 = acc ++ ((λ word, (word, classify sel att word)) <$> words))
    as Hloop; [|by rewrite Hloop].
  induction words as [|w rest IH]; intros acc; simpl.
  - by rewrite app_nil_r.
  - by rewrite IH -app_assoc.
Qed.

Lemma append_cons c (s1 s2 : string) : String c s1 +:+ s2 = String c (s1 +:+ s2).
Proof. reflexivity. Qed.

Lemma append_assoc (s1 s2 s3 : string) : (s1 +:+ s2) +:+ s3 = s1 +:+ (s2 +:+ s3).
Proof. induction s1 as [|c s1 IH]; [done|]. by rewrite !append_cons IH. Qed.

Lemma append_empty_r (s : string) : s +:+ "" = s.
Proof. induction s as [|c s IH]; [done|]. by rewrite append_cons IH. Qed.

(** The markup is the concatenation of one [span] per token. *)
Lemma sentence_html_tokens words sel att :
  sentence_html words sel att =
    foldr (λ token rest, span token.2 token.1 +:+ rest) ""
      (sentence_tokens words sel att).
Proof.
  rewrite sentence_tokens_map. unfold sentence_html.
  assert (∀ acc, foldl (λ html word, html +:+ span (classify sel att word) word)
                   acc words
                 = acc +:+ foldr (λ token rest, span token.2 token.1 +:+ rest) ""
                             ((λ word, (word, classify sel att word)) <$> words))
    as Hloop; [|by rewrite Hloop].
  induction words as [|w rest IH]; intros acc; simpl.
  - by rewrite append_empty_r.
  - by rewrite IH append_assoc.
Qed.

Lemma classify_selected sel att word : classify sel att word = selected ↔ word = sel.
Proof. unfold classify. repeat destruct (decide _); intuition congruence. Qed.

Lemma classify_attending sel att word :
  classify sel att word = attending ↔ word ≠ sel ∧ word ∈ att.
Proof. unfold classify. repeat destruct (decide _); intuition congruence. Qed.

Lemma classify_neutral sel att word :
  classify sel att word = neutral ↔ word ≠ sel ∧ word ∉ att.
Proof. unfold classify. repeat destruct (decide _); intuition congruence. Qed.

Lemma selected_count words sel att :
  length (filter is_selected (sentence_tokens words sel att)) =
    length (filter (λ word, word = sel) words).
Proof.
  rewrite sentence_tokens_map.
  induction words as [|w rest IH]; [done|].
  rewrite fmap_cons !filter_cons.
  destruct (decide (w = sel)) as [Hw|Hw].
  - rewrite decide_True; [|by apply classify_selected]. simpl. by rewrite IH.
  - rewrite decide_False; [done|]. by rewrite /is_selected /= classify_selected.
Qed.

Lemma count_NoDup (words : list string) w :
  NoDup words → w ∈ words → length (filter (λ word, word = w) words) = 1.
Proof.
  induction 1 as [|x rest Hx Hnd IH]; [by intros ?%elem_of_nil|].
  intros Hin. rewrite filter_cons. case_decide as Hxw.
  - subst x. simpl. f_equal.
    destruct (filter (λ word, word = w) rest) as [|y l] eqn:Hf; [done|].
    assert (y ∈ filter (λ word, word = w) rest) as [-> Hy]%list_elem_of_filter.
    { rewrite Hf. apply elem_of_cons. by left. }
    done.
  - apply IH. apply elem_of_cons in Hin as [->|]; done.
Qed.

(** C2, as amended.  The sentence loop yields one (word, class) pair per
    word of [words], in input order.  A pair has class [selected] exactly
    when its word equals the selected word, so the number of [selected]
    pairs is the number of occurrences of the selected word in [words]: one
    when the word occurs once (in particular when [words] has no
    duplicates), none when it is absent.  A pair has class [attending]
    exactly when its word differs from the selected word and is a member of
    the attended list, and [neutral] in every other case. *)
Theorem sentence_tokens_classes (words : list string) (w : string)
    (attended : list string) :
  length (sentence_tokens words w attended) = length words ∧
  (sentence_tokens words w attended).*1 = words ∧
  (∀ i word, words !! i = Some word →
     ∃ c, sentence_tokens words w attended !! i = Some (word, c) ∧
       (c = selected ↔ word = w) ∧
       (c = attending ↔ word ≠ w ∧ word ∈ attended) ∧
       (c = neutral ↔ word ≠ w ∧ word ∉ attended)) ∧
  length (filter is_selected (sentence_tokens words w attended)) =
    length (filter (λ word, word = w) words) ∧
  (NoDup words → w ∈ words →
     length (filter is_selected (sentence_tokens words w attended)) = 1) ∧
  (w ∉ words →
     length (filter is_selected (sentence_tokens words w attended)) = 0).
Proof.
  split; [by rewrite sentence_tokens_map length_fmap|].
  split.
  { rewrite sentence_tokens_map -list_fmap_compose. apply list_fmap_id. }
  split.
  { intros i word Hi. exists (classify w attended word).
    rewrite sentence_tokens_map list_lookup_fmap Hi. split; [done|].
    split; [apply classify_selected|].
    split; [apply classify_attending|apply classify_neutral]. }
  split; [apply selected_count|].
  split.
  - intros Hnd Hin. rewrite selected_count. by apply count_NoDup.
  - intros Hnin. rewrite selected_count.
    destruct (filter (λ word, word = w) words) as [|y l] eqn:Hf; [done|].
    assert (y ∈ filter (λ word, word = w) words) as [-> Hy]%list_elem_of_filter;
      [|done].
    rewrite Hf. apply elem_of_cons. by left.
Qed.

(** C2 as stated fails on a sentence that repeats the selected word: both
    occurrences are displayed as [selected], so the number of [selected]
    pairs is two and not one. *)
Lemma sentence_tokens_repeated_word :
  "the" ∈ ["the"; "cat"; "saw"; "the"; "dog"] ∧
  sentence_tokens ["the"; "cat"; "saw"; "the"; "dog"] "the" ["cat"] =
    [("the", selected); ("cat", attending); ("saw", neutral);
     ("the", selected); ("dog", neutral)] ∧
  length (filter is_selected
            (sentence_tokens ["the"; "cat"; "saw"; "the"; "dog"] "the" ["cat"]))
    ≠ 1.
Proof. split; [by apply elem_of_cons; left|]. split; [done|]. by vm_compute. Qed.

(** C6.  The words offered by the word selector are exactly the words of
    the sentence whose lowercase form is a key of the attention mapping,
    in sentence order; for the two catalog examples these are the lists
    below, and "Our" is not among the words offered for the Business
    example. *)
Theorem available_words_keys :
  (∀ (lower : string → string) (words : list string)
     (attention_dict : gmap string (list string)) (w : string),
     w ∈ available_words lower words attention_dict ↔
       w ∈ words ∧ is_Some (attention_dict !! lower w)) ∧
  (∀ (lower : string → string) (words : list string)
     (attention_dict : gmap string (list string)),
     sublist (available_words lower words attention_dict) words) ∧
  available_words str_lower (words Business) (attention Business) =
    ["company"; "profits"; "stock"; "surged"] ∧
  available_words str_lower (words Technology) (attention Technology) =
    ["model"; "processes"; "language"] ∧
  "Our" ∉ available_words str_lower (words Business) (attention Business).
Proof.
  split.
  { intros lower ws att w. unfold available_words.
    rewrite list_elem_of_filter. tauto. }
  split; [intros; apply sublist_filter|].
  split; [by vm_compute|]. split; [by vm_compute|].
  assert (available_words str_lower (words Business) (attention Business) =
            ["company"; "profits"; "stock"; "surged"]) as -> by by vm_compute.
  rewrite !not_elem_of_cons. repeat split; try done. apply not_elem_of_nil.
Qed.

(** ** The matrix of a selected word *)

Lemma selected_not_attended words sel targets si :
  index words sel = Ok si → sel ∉ targets → ¬ attended_col words targets si.
Proof.
  intros [Hsi _]%index_Ok Hnin (t & Hin & Ht)%attended_col_word.
  by simplify_eq.
Qed.

(** No selectable word of the catalog is in its own attended list. *)
Lemma catalog_no_self_attention name E w :
  (name, E) ∈ EXAMPLES → w ∈ words E →
  w ∉ attending_words str_lower w (attention E).
Proof.
  unfold EXAMPLES. rewrite !elem_of_cons elem_of_nil.
  intros [[= -> ->]|[[= -> ->]|[]]]; simpl; rewrite !elem_of_cons elem_of_nil;
    intros Hw; repeat (destruct Hw as [->|Hw]; [compute_done|]); done.
Qed.

(** C3.  For an example of the catalog and a word of its sentence whose
    lowercase form is a key of its attention mapping, the matrix has shape
    (N, N) with N the number of words, every diagonal cell is 1.0, and every
    off-diagonal cell that the loop over the attended words does not write
    is 0.1. *)
Theorem catalog_matrix (name : string) (E : example) (w : string) :
  (name, E) ∈ EXAMPLES → w ∈ words E →
  is_Some (attention E !! str_lower w) →
  ∃ matrix,
    attention_matrix str_lower (words E) w (attention E) = Ok matrix ∧
    square (length (words E)) matrix ∧
    (∀ i, i < length (words E) → cell matrix i i = Some 1%float) ∧
    (∀ i j, i < length (words E) → j < length (words E) → i ≠ j →
       ¬ attended_cell (words E) w
           (attending_words str_lower w (attention E)) i j →
       cell matrix i j = Some 0.1%float).
Proof.
  intros HE Hw [targets Hkey].
  pose proof (catalog_no_self_attention _ _ _ HE Hw) as Hself.
  unfold attending_words in *. rewrite Hkey in Hself |- *. simpl in *.
  destruct (attention_matrix_spec str_lower _ _ _ _ Hw Hkey)
    as (matrix & si & Hrun & Hsi & Hsq & Hatt & Hrest).
  exists matrix. split; [done|]. split; [done|]. split.
  - intros i Hi. rewrite Hrest; [by rewrite decide_True|done|done|].
    intros [-> Hcol]. by eapply selected_not_attended.
  - intros i j Hi Hj Hij Hcell. rewrite Hrest; [by rewrite decide_False|done|done|].
    intros [-> Hcol]. by apply Hcell.
Qed.

(** The Business example with "stock" selected. *)
Lemma catalog_matrix_stock :
  ("Business", Business) ∈ EXAMPLES ∧ "stock" ∈ words Business ∧
  is_Some (attention Business !! str_lower "stock") ∧
  ∃ matrix,
    attention_matrix str_lower (words Business) "stock" (attention Business)
      = Ok matrix ∧
    square (length (words Business)) matrix ∧
    (∀ i, i < length (words Business) → cell matrix i i = Some 1%float) ∧
    (∀ i j, i < length (words Business) → j < length (words Business) →
       i ≠ j →
       ¬ attended_cell (words Business) "stock"
           (attending_words str_lower "stock" (attention Business)) i j →
       cell matrix i j = Some 0.1%float).
Proof.
  assert (("Business", Business) ∈ EXAMPLES) as HE
    by (apply elem_of_cons; by left).
  assert ("stock" ∈ words Business) as Hw by compute_done.
  assert (is_Some (attention Business !! str_lower "stock")) as Hkey
    by compute_done.
  split; [exact HE|]. split; [exact Hw|]. split; [exact Hkey|].
  exact (catalog_matrix "Business" Business "stock" HE Hw Hkey).
Defined.

Section claims.
Variable lower : string → string.

Lemma attention_matrix_ext words sel (att att' : gmap string (list string)) :
  att !! lower sel = att' !! lower sel →
  attention_matrix lower words sel att = attention_matrix lower words sel att'.
Proof. intros Heq. unfold attention_matrix, getitem. by rewrite Heq. Qed.

Lemma attention_matrix_total words sel att :
  sel ∈ words →
  ∃ matrix, attention_matrix lower words sel att = Ok matrix ∧
            square (length words) matrix.
Proof.
  intros Hin. destruct (att !! lower sel) as [targets|] eqn:Hkey.
  - destruct (attention_matrix_spec lower _ _ _ _ Hin Hkey)
      as (matrix & si & Hrun & _ & Hsq & _). eauto.
  - rewrite attention_matrix_no_key; [|done]. eexists. split; [done|].
    apply square_fill_diagonal, square_full.
Qed.

(** C1, as amended.  When the selected word is not in [words], the outcome
    depends on the attention mapping.  If the lowercase form of the word is
    a key, [words.index] raises the built-in [ValueError], which leaves
    [create_simple_heatmap] unchanged and which [main] displays as a
    visualization error.  If it is not a key, nothing is raised: the matrix
    with 0.1 everywhere and 1.0 on the diagonal is returned.  There is no
    dedicated validation error. *)
Theorem word_not_in_sentence (words : list string) (selected_word : string)
    (attention_dict : gmap string (list string)) :
  selected_word ∉ words →
  attention_matrix lower words selected_word attention_dict =
    (if decide (is_Some (attention_dict !! lower selected_word))
     then Raise ValueError
     else Ok (fill_diagonal (full (length words) (length words) 0.1%float)
                1%float)) ∧
  (is_Some (attention_dict !! lower selected_word) →
     create_simple_heatmap lower words selected_word attention_dict =
       Raise ValueError ∧
     heatmap_panel lower words selected_word attention_dict =
       visualization_error ValueError).
Proof.
  intros Hnin.
  assert (is_Some (attention_dict !! lower selected_word) →
          attention_matrix lower words selected_word attention_dict =
            Raise ValueError) as Hraise.
  { intros [targets Hkey]. rewrite (attention_matrix_key _ _ _ _ _ Hkey).
    by rewrite index_not_elem_of. }
  split.
  - case_decide as Hkey; [by apply Hraise|].
    apply attention_matrix_no_key. by apply eq_None_not_Some.
  - intros Hkey. unfold heatmap_panel, create_simple_heatmap.
    by rewrite Hraise.
Qed.

(** Every attended word that occurs in the sentence has 0.8 in the row of
    the selected word, at the column of its first occurrence. *)
Lemma attended_cell_value words w att targets target :
  w ∈ available_words lower words att →
  att !! lower w = Some targets → target ∈ targets → target ∈ words →
  ∃ matrix si ti,
    attention_matrix lower words w att = Ok matrix ∧
    index words w = Ok si ∧ index words target = Ok ti ∧
    cell matrix si ti = Some 0.8%float.
Proof.
  intros [_ Hw]%list_elem_of_filter Hkey Ht Htw.
  destruct (attention_matrix_spec lower _ _ _ _ Hw Hkey)
    as (matrix & si & Hrun & Hsi & _ & Hatt & _).
  destruct (index_elem_of _ _ Htw) as [ti Hti].
  exists matrix, si, ti. repeat split; try done.
  apply Hatt, attended_col_iff. eauto.
Qed.

(** C5.  An attended word that is not in the sentence is skipped: the
    outcome of the builder (the matrix, or the exception) is the one obtained
    with that occurrence removed from the attended list, and for a selected
    word of the sentence the outcome is a matrix of shape (N, N). *)
Theorem unknown_target_skipped (words : list string) (selected_word : string)
    (attention_dict : gmap string (list string)) (key : string)
    (before : list string) (target_word : string) (after : list string) :
  attention_dict !! key = Some (before ++ target_word :: after) →
  target_word ∉ words →
  attention_matrix lower words selected_word attention_dict =
    attention_matrix lower words selected_word
      (<[key := before ++ after]> attention_dict) ∧
  (selected_word ∈ words →
     ∃ matrix,
       attention_matrix lower words selected_word attention_dict = Ok matrix ∧
       square (length words) matrix).
Proof.
  intros Hkey Hnin. split; [|apply attention_matrix_total].
  destruct (decide (key = lower selected_word)) as [->|Hne].
  - rewrite (attention_matrix_key _ _ _ _ _ Hkey).
    rewrite (attention_matrix_key _ _ _ (<[_ := _]> attention_dict)
               (before ++ after)); [|by rewrite lookup_insert_eq].
    destruct (index words selected_word) as [si|e]; simpl; [|done].
    rewrite !fill_scores_app.
    destruct (fill_scores words si before _) as [matrix|e]; simpl; [|done].
    by rewrite decide_False.
  - apply attention_matrix_ext. by rewrite lookup_insert_ne.
Qed.

(** C9.  When the selected word is in the sentence and occurs in its own
    attended list, the diagonal cell of its row is 0.8: the write of line 89
    comes after [np.fill_diagonal]. *)
Theorem diagonal_overwritten (words : list string) (selected_word : string)
    (attention_dict : gmap string (list string)) (targets : list string) :
  selected_word ∈ words →
  attention_dict !! lower selected_word = Some targets →
  selected_word ∈ targets →
  ∃ matrix selected_idx,
    attention_matrix lower words selected_word attention_dict = Ok matrix ∧
    index words selected_word = Ok selected_idx ∧
    cell matrix selected_idx selected_idx = Some 0.8%float.
Proof.
  intros Hw Hkey Hself.
  destruct (attention_matrix_spec lower _ _ _ _ Hw Hkey)
    as (matrix & si & Hrun & Hsi & _ & Hatt & _).
  exists matrix, si. repeat split; try done.
  apply Hatt, attended_col_iff. eauto.
Qed.

Lemma fill_scores_single w targets v :
  fill_scores [w] 0 targets [[v]] =
    Ok [[if decide (w ∈ targets) then 0.8%float else v]].
Proof.
  revert v. induction targets as [|t rest IH]; intros v; cbn [fill_scores].
  { by destruct (decide (w ∈ [])) as [?%elem_of_nil|]. }
  destruct (decide (t ∈ [w])) as [Ht|Ht].
  - apply list_elem_of_singleton in Ht as ->.
    assert (index [w] w = Ok 0) as -> by (simpl; by rewrite decide_True).
    assert (setitem [[v]] 0 0 0.8%float = Ok [[0.8%float]]) as Hset by done.
    change (setitem [[v]] 0 0 0.8%float ≫= fill_scores [w] 0 rest = 
            Ok [[if decide (w ∈ w :: rest) then 0.8%float else v]]).
    rewrite Hset. change (fill_scores [w] 0 rest [[0.8%float]] =
            Ok [[if decide (w ∈ w :: rest) then 0.8%float else v]]).
    rewrite IH.
    destruct (decide (w ∈ w :: rest)) as [_|[]]; [|by apply elem_of_cons; left].
    by destruct (decide (w ∈ rest)).
  - rewrite IH. apply not_elem_of_cons in Ht as [Hne _].
    destruct (decide (w ∈ rest)) as [Hr|Hr];
      destruct (decide (w ∈ t :: rest)) as [Hc|Hc]; try done.
    + destruct Hc. apply elem_of_cons. by right.
    + apply elem_of_cons in Hc as [->|]; done.
Qed.

(** C7, as amended.  For a sentence of one word with that word selected,
    the matrix is 1 by 1; its value is 1.0 unless the word occurs in its own
    attended list, in which case the value is 0.8.  The only token is the
    selected one, so no token has class [attending]. *)
Theorem single_word (w : string) (attention_dict : gmap string (list string)) :
  attention_matrix lower [w] w attention_dict =
    Ok [[if decide (w ∈ attending_words lower w attention_dict)
         then 0.8%float else 1%float]] ∧
  sentence_tokens [w] w (attending_words lower w attention_dict) =
    [(w, selected)] ∧
  (∀ token, token ∈ sentence_tokens [w] w
                      (attending_words lower w attention_dict) →
            token.2 ≠ attending).
Proof.
  assert (sentence_tokens [w] w (attending_words lower w attention_dict) =
            [(w, selected)]) as Htok.
  { rewrite sentence_tokens_map. simpl. unfold classify.
    by rewrite decide_True. }
  split; [|split; [done|]].
  - unfold attending_words.
    destruct (attention_dict !! lower w) as [targets|] eqn:Hkey; simpl.
    + rewrite (attention_matrix_key _ _ _ _ _ Hkey). simpl.
      rewrite decide_True; [|done]. simpl. apply fill_scores_single.
    + rewrite attention_matrix_no_key; [|done].
      by destruct (decide (w ∈ [])) as [?%elem_of_nil|].
  - rewrite Htok. by intros token ->%list_elem_of_singleton.
Qed.

End claims.

(** The attended level and the diagonal level are different floats. *)
Lemma attended_ne_self : 0.8%float ≠ 1%float.
Proof.
  intros H. apply (f_equal (λ x, PrimFloat.ltb x 1)) in H.
  vm_compute in H. done.
Qed.

Lemma fill_scores_filter words si target targets matrix :
  target ∉ words →
  fill_scores words si (filter (λ t, t ≠ target) targets) matrix =
    fill_scores words si targets matrix.
Proof.
  intros Hnin. revert matrix.
  induction targets as [|t rest IH]; intros matrix; [done|].
  rewrite filter_cons. destruct (decide (t ≠ target)) as [Hne|Heq].
  - simpl. case_decide; [|apply IH].
    destruct (index words t) as [tj|e]; simpl; [|done].
    destruct (setitem matrix si tj _) as [matrix'|e]; simpl; [apply IH|done].
  - apply dec_stable in Heq as ->. rewrite IH. simpl. by rewrite decide_False.
Qed.

(** The Business sentence has no repeated word: with "profits" selected
    exactly one token is [selected]. *)
Lemma sentence_tokens_classes_profits :
  NoDup (words Business) ∧ "profits" ∈ words Business ∧
  length (filter is_selected
            (sentence_tokens (words Business) "profits"
               ["company"; "quarterly"; "strong"])) = 1.
Proof.
  assert (NoDup (words Business)) as Hnd by compute_done.
  assert ("profits" ∈ words Business) as Hin by compute_done.
  split; [exact Hnd|]. split; [exact Hin|].
  exact (proj1 (proj2 (proj2 (proj2 (proj2
           (sentence_tokens_classes (words Business) "profits"
              ["company"; "quarterly"; "strong"]))))) Hnd Hin).
Defined.

(** The only token of a one-word sentence is the selected one. *)
Lemma single_word_token :
  ("stock", selected) ∈
    sentence_tokens ["stock"] "stock"
      (attending_words str_lower "stock" (attention Business)) ∧
  ("stock", selected).2 ≠ attending.
Proof.
  assert (("stock", selected) ∈
            sentence_tokens ["stock"] "stock"
              (attending_words str_lower "stock" (attention Business))) as Hin
    by compute_done.
  split; [exact Hin|].
  exact (proj2 (proj2 (single_word str_lower "stock" (attention Business)))
           ("stock", selected) Hin).
Defined.

(** C1 as stated fails in both cases of the attention mapping.  "STOCK" is
    not a word of the Business sentence and its lowercase form is a key:
    the builder raises the built-in [ValueError] of [list.index].  "prices"
    is not a word of the sentence either and is no key: the builder raises
    nothing and returns a matrix. *)
Lemma word_not_found_counterexample :
  ("STOCK" ∉ words Business) ∧
  attention_matrix str_lower (words Business) "STOCK" (attention Business) =
    Raise ValueError ∧
  ("prices" ∉ words Business) ∧
  ¬ ∃ e, attention_matrix str_lower (words Business) "prices"
           (attention Business) = Raise e.
Proof.
  split; [compute_done|]. split; [by vm_compute|]. split; [compute_done|].
  intros [e He]. vm_compute in He. done.
Qed.

(** "STOCK" is not a word of the Business sentence, but "stock" is a key. *)
Lemma word_not_in_sentence_STOCK :
  ("STOCK" ∉ words Business) ∧
  attention_matrix str_lower (words Business) "STOCK" (attention Business) =
    Raise ValueError ∧
  heatmap_panel str_lower (words Business) "STOCK" (attention Business) =
    visualization_error ValueError.
Proof.
  assert ("STOCK" ∉ words Business) as Hnin by compute_done.
  assert (is_Some (attention Business !! str_lower "STOCK")) as Hkey
    by compute_done.
  destruct (word_not_in_sentence str_lower (words Business) "STOCK"
              (attention Business) Hnin) as [Hmatrix Hpanel].
  split; [exact Hnin|]. split.
  - rewrite Hmatrix. by destruct (decide _).
  - exact (proj2 (Hpanel Hkey)).
Defined.

(** C4.  Every attended word that occurs in the sentence has 0.8 in the row
    of the selected word, at the column of its first occurrence.  For the
    Business example with "stock" selected, row 8 has 1.0 at column 8, 0.8 at
    columns 1, 5 and 10 ("company", "profits", "surged"), and 0.1 in every
    other column. *)
Theorem attended_cells :
  (∀ (lower : string → string) (words : list string) (w : string)
     (attention_dict : gmap string (list string))
     (targets : list string) (target : string),
     w ∈ available_words lower words attention_dict →
     attention_dict !! lower w = Some targets →
     target ∈ targets → target ∈ words →
     ∃ matrix si ti,
       attention_matrix lower words w attention_dict = Ok matrix ∧
       index words w = Ok si ∧ index words target = Ok ti ∧
       cell matrix si ti = Some 0.8%float) ∧
  (∃ matrix,
     attention_matrix str_lower (words Business) "stock" (attention Business)
       = Ok matrix ∧
     index (words Business) "stock" = Ok 8 ∧
     index (words Business) "company" = Ok 1 ∧
     index (words Business) "profits" = Ok 5 ∧
     index (words Business) "surged" = Ok 10 ∧
     cell matrix 8 8 = Some 1%float ∧
     cell matrix 8 1 = Some 0.8%float ∧
     cell matrix 8 5 = Some 0.8%float ∧
     cell matrix 8 10 = Some 0.8%float ∧
     (∀ j, j < 11 → j ∉ [1; 5; 8; 10] → cell matrix 8 j = Some 0.1%float)).
Proof.
  split; [intros; by eapply attended_cell_value|].
  eexists. split; [by vm_compute|].
  do 8 (split; [done|]).
  intros j Hj Hnot.
  do 11 (destruct j as [|j];
         [first [done | destruct Hnot; compute_done]|]).
  lia.
Qed.

(** "profits" attends to "quarterly" in the Business example. *)
Lemma attended_cells_profits :
  "profits" ∈ available_words str_lower (words Business) (attention Business) ∧
  attention Business !! str_lower "profits" =
    Some ["company"; "quarterly"; "strong"] ∧
  "quarterly" ∈ ["company"; "quarterly"; "strong"] ∧
  "quarterly" ∈ words Business ∧
  ∃ matrix si ti,
    attention_matrix str_lower (words Business) "profits" (attention Business)
      = Ok matrix ∧
    index (words Business) "profits" = Ok si ∧
    index (words Business) "quarterly" = Ok ti ∧
    cell matrix si ti = Some 0.8%float.
Proof.
  assert ("profits" ∈ available_words str_lower (words Business)
                        (attention Business)) as Hw by compute_done.
  assert (attention Business !! str_lower "profits" =
            Some ["company"; "quarterly"; "strong"]) as Hkey by by vm_compute.
  assert ("quarterly" ∈ ["company"; "quarterly"; "strong"]) as Ht
    by compute_done.
  assert ("quarterly" ∈ words Business) as Htw by compute_done.
  split; [exact Hw|]. split; [exact Hkey|]. split; [exact Ht|].
  split; [exact Htw|].
  exact (proj1 attended_cells str_lower (words Business) "profits"
           (attention Business) _ "quarterly" Hw Hkey Ht Htw).
Defined.

(** "dividend" is not a word of the Business sentence: adding it to the
    attended list of "stock" changes nothing. *)
Lemma unknown_target_skipped_example :
  (<["stock" := ["company"; "dividend"; "surged"] ]> (attention Business)
     !! "stock" = Some (["company"] ++ "dividend" :: ["surged"])) ∧
  ("dividend" ∉ words Business) ∧
  attention_matrix str_lower (words Business) "stock"
    (<["stock" := ["company"; "dividend"; "surged"] ]> (attention Business)) =
  attention_matrix str_lower (words Business) "stock"
    (<["stock" := ["company"] ++ ["surged"] ]>
       (<["stock" := ["company"; "dividend"; "surged"] ]> (attention Business))).
Proof.
  assert (<["stock" := ["company"; "dividend"; "surged"] ]> (attention Business)
            !! "stock" = Some (["company"] ++ "dividend" :: ["surged"]))
    as Hkey by apply lookup_insert_eq.
  assert ("dividend" ∉ words Business) as Hnin by compute_done.
  split; [exact Hkey|]. split; [exact Hnin|].
  exact (proj1 (unknown_target_skipped str_lower (words Business) "stock" _
                  "stock" ["company"] "dividend" ["surged"] Hkey Hnin)).
Defined.

(** A word that attends to itself. *)
Lemma diagonal_overwritten_example :
  "bank" ∈ ["the"; "bank"; "opened"] ∧
  ({["bank" := ["bank"; "opened"] ]} : gmap string (list string))
    !! str_lower "bank" = Some ["bank"; "opened"] ∧
  "bank" ∈ ["bank"; "opened"] ∧
  ∃ matrix selected_idx,
    attention_matrix str_lower ["the"; "bank"; "opened"] "bank"
      {["bank" := ["bank"; "opened"] ]} = Ok matrix ∧
    index ["the"; "bank"; "opened"] "bank" = Ok selected_idx ∧
    cell matrix selected_idx selected_idx = Some 0.8%float.
Proof.
  assert ("bank" ∈ ["the"; "bank"; "opened"]) as Hw by compute_done.
  assert (({["bank" := ["bank"; "opened"] ]} : gmap string (list string))
            !! str_lower "bank" = Some ["bank"; "opened"]) as Hkey
    by by vm_compute.
  assert ("bank" ∈ ["bank"; "opened"]) as Hself by compute_done.
  split; [exact Hw|]. split; [exact Hkey|]. split; [exact Hself|].
  exact (diagonal_overwritten str_lower _ "bank" _ _ Hw Hkey Hself).
Defined.

(** C7 as stated fails when the single word is in its own attended list:
    the only cell of the matrix is 0.8, not 1.0. *)
Lemma single_word_attending_to_itself :
  attention_matrix str_lower ["stock"] "stock" {["stock" := ["stock"] ]} =
    Ok [[0.8%float]] ∧
  attention_matrix str_lower ["stock"] "stock" {["stock" := ["stock"] ]} ≠
    Ok [[1%float]].
Proof.
  assert (attention_matrix str_lower ["stock"] "stock"
            {["stock" := ["stock"] ]} = Ok [[0.8%float]]) as H by by vm_compute.
  split; [done|]. rewrite H. intros Hv.
  apply (f_equal (λ r, match r with
                       | Ok [[v]] => Some v
                       | _ => None
                       end)) in Hv.
  apply attended_ne_self. by apply (inj Some).
Qed.

(** C10, as amended.  The membership tests of lines 87 and 131 compare
    strings exactly, while the key lookup of lines 84 and 126 uses the
    lowercase form of the selected word.  An attended word that matches no
    sentence word exactly is skipped by the builder.  A sentence word that
    differs from an attended word only in letter case keeps the baseline 0.1
    in the row of the selected word and is displayed as [neutral], provided
    it is not the selected word and does not itself occur in the attended
    list. *)
Theorem case_sensitive_membership (lower : string → string)
    (words : list string) (selected_word : string)
    (attention_dict : gmap string (list string)) (targets : list string)
    (target_word word : string) (j : nat) :
  selected_word ∈ words →
  attention_dict !! lower selected_word = Some targets →
  target_word ∈ targets →
  words !! j = Some word →
  lower target_word = lower word → target_word ≠ word →
  word ≠ selected_word → word ∉ targets →
  (target_word ∉ words →
     attention_matrix lower words selected_word attention_dict =
       attention_matrix lower words selected_word
         (<[lower selected_word := filter (λ t, t ≠ target_word) targets]>
            attention_dict)) ∧
  ∃ matrix selected_idx,
    attention_matrix lower words selected_word attention_dict = Ok matrix ∧
    index words selected_word = Ok selected_idx ∧
    cell matrix selected_idx j = Some 0.1%float ∧
    sentence_tokens words selected_word
      (attending_words lower selected_word attention_dict) !! j =
      Some (word, neutral).
Proof.
  intros Hsel Hkey Htarget Hword Hcase Hdiff Hnsel Hnatt. split.
  { intros Hnin. rewrite (attention_matrix_key _ _ _ _ _ Hkey).
    rewrite (attention_matrix_key _ _ _ (<[_ := _]> attention_dict)
               (filter (λ t, t ≠ target_word) targets));
      [|by rewrite lookup_insert_eq].
    destruct (index words selected_word) as [si|e]; simpl; [|done].
    by rewrite fill_scores_filter. }
  destruct (attention_matrix_spec lower _ _ _ _ Hsel Hkey)
    as (matrix & si & Hrun & Hsi & _ & _ & Hrest).
  exists matrix, si. split; [done|]. split; [done|]. split.
  - rewrite Hrest.
    + destruct (decide (si = j)) as [->|]; [|done].
      apply index_Ok in Hsi as [Hsi _]. by simplify_eq.
    + by eapply index_lt.
    + by eapply lookup_lt_Some.
    + intros [_ (t & Ht & Hj)%attended_col_word]. by simplify_eq.
  - rewrite sentence_tokens_map list_lookup_fmap Hword. simpl.
    do 2 f_equal. apply classify_neutral. split; [done|].
    unfold attending_words. by rewrite Hkey.
Qed.

(** "OUR" in the attended list of "company" does not match the sentence
    word "Our". *)
Lemma case_sensitive_membership_example :
  "company" ∈ words Business ∧
  (<["company" := ["OUR"; "profits"] ]> (attention Business))
    !! str_lower "company" = Some ["OUR"; "profits"] ∧
  "OUR" ∈ ["OUR"; "profits"] ∧
  words Business !! 0 = Some "Our" ∧
  str_lower "OUR" = str_lower "Our" ∧ "OUR" ≠ "Our" ∧
  "Our" ≠ "company" ∧ ("Our" ∉ ["OUR"; "profits"]) ∧
  ∃ matrix selected_idx,
    attention_matrix str_lower (words Business) "company"
      (<["company" := ["OUR"; "profits"] ]> (attention Business)) = Ok matrix ∧
    index (words Business) "company" = Ok selected_idx ∧
    cell matrix selected_idx 0 = Some 0.1%float ∧
    sentence_tokens (words Business) "company"
      (attending_words str_lower "company"
         (<["company" := ["OUR"; "profits"] ]> (attention Business))) !! 0 =
      Some ("Our", neutral).
Proof.
  assert ("company" ∈ words Business) as H1 by compute_done.
  assert ((<["company" := ["OUR"; "profits"] ]> (attention Business))
            !! str_lower "company" = Some ["OUR"; "profits"]) as H2
    by by vm_compute.
  assert ("OUR" ∈ ["OUR"; "profits"]) as H3 by compute_done.
  assert (words Business !! 0 = Some "Our") as H4 by done.
  assert (str_lower "OUR" = str_lower "Our") as H5 by done.
  assert ("OUR" ≠ "Our") as H6 by done.
  assert ("Our" ≠ "company") as H7 by done.
  assert ("Our" ∉ ["OUR"; "profits"]) as H8 by compute_done.
  do 8 (split; [assumption|]).
  exact (proj2 (case_sensitive_membership str_lower (words Business) "company"
                  _ _ "OUR" "Our" 0 H1 H2 H3 H4 H5 H6 H7 H8)).
Defined.

(** C10 as stated fails when the sentence word that differs from the
    attended word only in letter case is the selected word itself: "stock"
    is skipped by the builder, but the cell of "Stock" in its own row is the
    diagonal 1.0 and its token is displayed as [selected], not [neutral]. *)
Lemma case_variant_of_selected_word :
  "stock" ∈ ["stock"; "surged"] ∧
  ({["stock" := ["stock"; "surged"] ]} : gmap string (list string))
    !! str_lower "Stock" = Some ["stock"; "surged"] ∧
  str_lower "stock" = str_lower "Stock" ∧ "stock" ≠ "Stock" ∧
  ("stock" ∉ ["Stock"; "prices"; "surged"]) ∧
  attention_matrix str_lower ["Stock"; "prices"; "surged"] "Stock"
    {["stock" := ["stock"; "surged"] ]} =
    Ok [[1%float; 0.1%float; 0.8%float];
        [0.1%float; 1%float; 0.1%float];
        [0.1%float; 0.1%float; 1%float]] ∧
  sentence_tokens ["Stock"; "prices"; "surged"] "Stock"
    (attending_words str_lower "Stock" {["stock" := ["stock"; "surged"] ]}) =
    [("Stock", selected); ("prices", neutral); ("surged", attending)] ∧
  sentence_tokens ["Stock"; "prices"; "surged"] "Stock"
    (attending_words str_lower "Stock" {["stock" := ["stock"; "surged"] ]})
    !! 0 ≠ Some ("Stock", neutral).
Proof.
  split; [compute_done|]. split; [by vm_compute|]. split; [done|].
  split; [done|]. split; [compute_done|]. split; [by vm_compute|].
  assert (sentence_tokens ["Stock"; "prices"; "surged"] "Stock"
            (attending_words str_lower "Stock"
               {["stock" := ["stock"; "surged"] ]}) =
          [("Stock", selected); ("prices", neutral); ("surged", attending)])
    as -> by by vm_compute.
  split; done.
Qed.

(** ** The code over the store agrees with the functions on values *)

Lemma run_bind {A B} (m : state A) (f : A → state B) σ :
  run (m ≫= f) σ =
    match run m σ with
    | (Ok a, σ') => run (f a) σ'
    | (Raise e, σ') => (Raise e, σ')
    end.
Proof. done. Qed.

Lemma run_ret {A} (a : A) σ : run (mret a) σ = (Ok a, σ).
Proof. done. Qed.

Lemma result_bind_Ok {A B} (a : A) (f : A → result B) : Ok a ≫= f = f a.
Proof. done. Qed.

Lemma result_bind_Raise {A B} e (f : A → result B) : Raise e ≫= f = Raise e.
Proof. done. Qed.

Lemma run_list_len σ l items :
  σ !! l = Some (PyList items) →
  run (Store.list_len l) σ = (Ok (length items), σ).
Proof. intros H. by rewrite /Store.list_len /= H. Qed.

Lemma run_list_items σ l items :
  σ !! l = Some (PyList items) → run (Store.list_items l) σ = (Ok items, σ).
Proof. intros H. by rewrite /Store.list_items /= H. Qed.

Lemma run_list_index σ l items x :
  σ !! l = Some (PyList items) →
  run (Store.list_index l x) σ = (index items x, σ).
Proof. intros H. by rewrite /Store.list_index /= H. Qed.

Lemma run_list_contains σ l items x :
  σ !! l = Some (PyList items) →
  run (Store.list_contains l x) σ = (Ok (bool_decide (x ∈ items)), σ).
Proof. intros H. by rewrite /Store.list_contains /= H. Qed.

Lemma run_dict_contains σ d entries k :
  σ !! d = Some (PyDict entries) →
  run (Store.dict_contains d k) σ = (Ok (bool_decide (is_Some (entries !! k))), σ).
Proof. intros H. by rewrite /Store.dict_contains /= H. Qed.

Lemma run_dict_getitem σ d entries k :
  σ !! d = Some (PyDict entries) →
  run (Store.dict_getitem d k) σ = (getitem entries k, σ).
Proof. intros H. by rewrite /Store.dict_getitem /= H. Qed.

Lemma run_np_fill_diagonal σ a data v :
  run (Store.np_fill_diagonal a v) (<[a := NdArray data]> σ) =
    (Ok (), <[a := NdArray (fill_diagonal data v)]> σ).
Proof.
  by rewrite /Store.np_fill_diagonal /= lookup_insert_eq insert_insert_eq.
Qed.

Lemma run_ndarray_setitem σ a data data' i j v :
  setitem data i j v = Ok data' →
  run (Store.ndarray_setitem a i j v) (<[a := NdArray data]> σ) =
    (Ok (), <[a := NdArray data']> σ).
Proof.
  intros H.
  by rewrite /Store.ndarray_setitem /= lookup_insert_eq H insert_insert_eq.
Qed.

(** The loop of lines 86-89 reads [words] and writes only the matrix. *)
Lemma run_fill_loop σ words_ref matrix_ref words si targets matrix :
  σ !! words_ref = Some (PyList words) → matrix_ref ≠ words_ref →
  square (length words) matrix → si < length words →
  ∃ matrix',
    fill_scores words si targets matrix = Ok matrix' ∧
    run (Store.for_each targets (λ target_word,
           known ← Store.list_contains words_ref target_word;
           if known : bool then
             target_idx ← Store.list_index words_ref target_word;
             Store.ndarray_setitem matrix_ref si target_idx 0.8%float
           else mret ()))
        (<[matrix_ref := NdArray matrix]> σ) =
      (Ok (), <[matrix_ref := NdArray matrix']> σ).
Proof.
  intros Hwords Hne Hsq Hsi. revert matrix Hsq.
  induction targets as [|t rest IH]; intros matrix Hsq.
  { by exists matrix. }
  assert (∀ data, (<[matrix_ref := NdArray data]> σ) !! words_ref =
                  Some (PyList words)) as Hread.
  { intros data. by rewrite lookup_insert_ne. }
  cbn [Store.for_each fill_scores]. rewrite !run_bind.
  rewrite (run_list_contains _ _ _ _ (Hread matrix)).
  destruct (decide (t ∈ words)) as [Hin|Hnin].
  - rewrite bool_decide_eq_true_2; [|done]. rewrite run_bind.
    rewrite (run_list_index _ _ _ _ (Hread matrix)).
    destruct (index_elem_of _ _ Hin) as [tj Htj]. rewrite Htj.
    destruct (setitem_spec _ matrix si tj 0.8%float Hsq Hsi (index_lt _ _ _ Htj))
      as (matrix1 & Hset & Hsq1 & _).
    rewrite (run_ndarray_setitem _ _ _ _ _ _ _ Hset).
    destruct (IH matrix1 Hsq1) as (matrix' & Hpure & Hrun).
    exists matrix'. split; [|done]. simpl. by rewrite Hset.
  - rewrite bool_decide_eq_false_2; [|done]. rewrite run_ret.
    destruct (IH matrix Hsq) as (matrix' & Hpure & Hrun). by exists matrix'.
Qed.

Section store.
Variable lower : string → string.

(** One call of the builder: the matrix of [attention_matrix] is stored at
    an address that was unused before the call, and nothing else changes.
    When [words.index] raises, the array allocated so far is left behind at
    that address. *)
Lemma run_attention_matrix σ words_ref dict_ref words att sel :
  σ !! words_ref = Some (PyList words) →
  σ !! dict_ref = Some (PyDict att) →
  run (Store.attention_matrix lower words_ref dict_ref sel) σ =
    match attention_matrix lower words sel att with
    | Ok matrix => (Ok (fresh (dom σ)), <[fresh (dom σ) := NdArray matrix]> σ)
    | Raise e =>
        (Raise e,
         <[fresh (dom σ) :=
             NdArray (fill_diagonal
                        (full (length words) (length words) 0.1%float)
                        1%float)]> σ)
    end.
Proof.
  intros Hwords Hdict.
  assert (fresh (dom σ) ≠ words_ref) as Hnew_words.
  { intros Heq. apply (is_fresh (dom σ)). rewrite Heq. by apply elem_of_dom. }
  assert (fresh (dom σ) ≠ dict_ref) as Hnew_dict.
  { intros Heq. apply (is_fresh (dom σ)). rewrite Heq. by apply elem_of_dom. }
  unfold Store.attention_matrix.
  rewrite run_bind (run_list_len _ _ _ Hwords) run_bind.
  change (run (Store.np_full (length words) (length words) 0.1%float) σ)
    with (Ok (fresh (dom σ)),
          <[fresh (dom σ) :=
              NdArray (full (length words) (length words) 0.1%float)]> σ).
  cbv beta iota.
  rewrite run_bind run_np_fill_diagonal run_bind.
  rewrite (run_dict_contains _ _ att); [|by rewrite lookup_insert_ne].
  destruct (att !! lower sel) as [targets|] eqn:Hkey.
  - rewrite (attention_matrix_key _ _ _ _ _ Hkey).
    rewrite bool_decide_eq_true_2; [|done].
    rewrite run_bind (run_list_index _ _ words); [|by rewrite lookup_insert_ne].
    destruct (index words sel) as [si|e] eqn:Hsi;
      [rewrite result_bind_Ok|by rewrite result_bind_Raise].
    cbv beta iota.
    rewrite run_bind (run_dict_getitem _ _ att); [|by rewrite lookup_insert_ne].
    rewrite /getitem Hkey. cbv beta iota. rewrite run_bind.
    destruct (run_fill_loop σ words_ref (fresh (dom σ)) words si targets
                (fill_diagonal (full (length words) (length words) 0.1%float)
                   1%float))
      as (matrix' & -> & ->); try done.
    + apply square_fill_diagonal, square_full.
    + by eapply index_lt.
  - rewrite attention_matrix_no_key; [|done].
    rewrite bool_decide_eq_false_2; [done|]. by intros [? ?].
Qed.

(** The sentence loop reads [words] and [attending_words] and writes
    nothing. *)
Lemma run_tokens_loop σ attending_ref attending sel items tokens :
  σ !! attending_ref = Some (PyList attending) →
  run (Store.tokens_loop attending_ref sel items tokens) σ =
    (Ok (tokens ++ ((λ word, (word, classify sel attending word)) <$> items)),
     σ).
Proof.
  intros Hatt. revert tokens.
  induction items as [|word rest IH]; intros tokens;
    cbn [Store.tokens_loop]; rewrite ?fmap_nil ?fmap_cons.
  { by rewrite run_ret app_nil_r. }
  rewrite run_bind. unfold classify.
  destruct (decide (word = sel)) as [->|Hne].
  - rewrite run_ret. cbv beta iota. by rewrite IH -app_assoc.
  - rewrite run_bind (run_list_contains _ _ _ _ Hatt). cbv beta iota.
    rewrite run_ret. cbv beta iota. rewrite IH -app_assoc.
    destruct (decide (word ∈ attending)) as [Hin|Hnin];
      [rewrite bool_decide_eq_true_2|rewrite bool_decide_eq_false_2]; done.
Qed.

Lemma run_sentence_tokens σ words_ref attending_ref words attending sel :
  σ !! words_ref = Some (PyList words) →
  σ !! attending_ref = Some (PyList attending) →
  run (Store.sentence_tokens words_ref attending_ref sel) σ =
    (Ok (sentence_tokens words sel attending), σ).
Proof.
  intros Hwords Hatt. unfold Store.sentence_tokens.
  rewrite run_bind (run_list_items _ _ _ Hwords).
  by rewrite (run_tokens_loop _ _ _ _ _ _ Hatt) sentence_tokens_map.
Qed.

End store.

Lemma run_attention_matrix_outcome (lower : string → string) σ words_ref
    dict_ref words att sel :
  σ !! words_ref = Some (PyList words) →
  σ !! dict_ref = Some (PyDict att) →
  ∃ data,
    run (Store.attention_matrix lower words_ref dict_ref sel) σ =
      ((λ _, fresh (dom σ)) <$> attention_matrix lower words sel att,
       <[fresh (dom σ) := NdArray data]> σ) ∧
    (∀ matrix, attention_matrix lower words sel att = Ok matrix →
               data = matrix).
Proof.
  intros Hwords Hdict. rewrite (run_attention_matrix _ _ _ _ _ _ _ Hwords Hdict).
  destruct (attention_matrix lower words sel att) as [matrix|e].
  - exists matrix. split; [done|]. by intros ? [= <-].
  - eexists. split; [done|]. done.
Qed.

(** C8.  Two consecutive calls of the builder on the same word list,
    attention mapping and selected word produce the same matrix (or the same
    exception): each call stores at a new address the matrix that
    [attention_matrix] computes from the values of its arguments, and no
    object that existed before the calls is modified.  The sentence loop
    writes nothing to the store and returns the tokens that
    [sentence_tokens] computes from the values of its arguments, so calling
    it twice gives the same tokens. *)
Theorem builder_and_renderer_pure (lower : string → string)
    (σ : gmap nat object) (words_ref dict_ref attending_ref : nat)
    (words : list string) (attention_dict : gmap string (list string))
    (attending : list string) (selected_word : string) :
  σ !! words_ref = Some (PyList words) →
  σ !! dict_ref = Some (PyDict attention_dict) →
  σ !! attending_ref = Some (PyList attending) →
  let first :=
    run (Store.attention_matrix lower words_ref dict_ref selected_word) σ in
  let second :=
    run (Store.attention_matrix lower words_ref dict_ref selected_word)
        first.2 in
  let tokens1 :=
    run (Store.sentence_tokens words_ref attending_ref selected_word) σ in
  let tokens2 :=
    run (Store.sentence_tokens words_ref attending_ref selected_word)
        tokens1.2 in
  deref second.2 first.1 = deref second.2 second.1 ∧
  deref second.2 first.1 =
    attention_matrix lower words selected_word attention_dict ∧
  (∀ l, is_Some (σ !! l) → second.2 !! l = σ !! l) ∧
  tokens2.1 = tokens1.1 ∧
  tokens1.1 = Ok (sentence_tokens words selected_word attending) ∧
  tokens2.2 = σ.
Proof.
  intros Hwords Hdict Hatt first second tokens1 tokens2.
  assert (tokens1 = (Ok (sentence_tokens words selected_word attending), σ))
    as Ht1 by by apply run_sentence_tokens.
  assert (tokens2 = (Ok (sentence_tokens words selected_word attending), σ))
    as Ht2.
  { unfold tokens2. rewrite Ht1. by apply run_sentence_tokens. }
  rewrite Ht1 Ht2.
  destruct (run_attention_matrix_outcome lower σ words_ref dict_ref words
              attention_dict selected_word Hwords Hdict) as (d1 & E1 & D1).
  assert (fresh (dom σ) ∉ dom σ) as Hfresh by apply is_fresh.
  assert (∀ l, is_Some (σ !! l) → l ≠ fresh (dom σ)) as Hold.
  { intros l Hl ->. by apply Hfresh, elem_of_dom. }
  set (a1 := fresh (dom σ)) in *.
  set (σ1 := <[a1 := NdArray d1]> σ) in *.
  assert (σ1 !! words_ref = Some (PyList words)) as Hwords1.
  { rewrite lookup_insert_ne; [done|]. apply not_eq_sym, Hold. by eexists. }
  assert (σ1 !! dict_ref = Some (PyDict attention_dict)) as Hdict1.
  { rewrite lookup_insert_ne; [done|]. apply not_eq_sym, Hold. by eexists. }
  destruct (run_attention_matrix_outcome lower σ1 words_ref dict_ref words
              attention_dict selected_word Hwords1 Hdict1) as (d2 & E2 & D2).
  assert (fresh (dom σ1) ∉ dom σ1) as Hfresh1 by apply is_fresh.
  set (a2 := fresh (dom σ1)) in *.
  assert (a2 ≠ a1) as Hne.
  { intros Heq. apply Hfresh1. rewrite Heq. apply elem_of_dom.
    rewrite lookup_insert_eq. by eexists. }
  assert (first = ((λ _, a1) <$> attention_matrix lower words selected_word
                                   attention_dict, σ1)) as Hfirst by done.
  assert (second = ((λ _, a2) <$> attention_matrix lower words selected_word
                                    attention_dict,
                    <[a2 := NdArray d2]> σ1)) as Hsecond.
  { unfold second. by rewrite Hfirst. }
  rewrite Hfirst Hsecond. cbn [fst snd].
  assert (deref (<[a2 := NdArray d2]> σ1)
            ((λ _, a1) <$> attention_matrix lower words selected_word
                             attention_dict) =
          attention_matrix lower words selected_word attention_dict) as R1.
  { destruct (attention_matrix lower words selected_word attention_dict)
      as [matrix|e] eqn:Hrun; [|done].
    rewrite /deref /=. rewrite lookup_insert_ne; [|done].
    rewrite lookup_insert_eq. by rewrite (D1 matrix). }
  assert (deref (<[a2 := NdArray d2]> σ1)
            ((λ _, a2) <$> attention_matrix lower words selected_word
                             attention_dict) =
          attention_matrix lower words selected_word attention_dict) as R2.
  { destruct (attention_matrix lower words selected_word attention_dict)
      as [matrix|e] eqn:Hrun; [|done].
    rewrite /deref /=. rewrite lookup_insert_eq. by rewrite (D2 matrix). }
  split; [by rewrite R1 R2|]. split; [done|]. split; [|done].
  intros l Hl. rewrite lookup_insert_ne.
  2:{ intros <-. apply Hfresh1, elem_of_dom. rewrite lookup_insert_ne; [done|].
      apply not_eq_sym. by apply Hold. }
  rewrite lookup_insert_ne; [done|]. apply not_eq_sym. by apply Hold.
Qed.

(** Two calls on the Business example with "stock" selected. *)
Lemma builder_and_renderer_pure_stock :
  business_store !! 0 = Some (PyList (words Business)) ∧
  business_store !! 1 = Some (PyDict (attention Business)) ∧
  business_store !! 2 = Some (PyList ["company"; "profits"; "surged"]) ∧
  deref
    (run (Store.attention_matrix str_lower 0 1 "stock")
       (run (Store.attention_matrix str_lower 0 1 "stock") business_store).2).2
    (run (Store.attention_matrix str_lower 0 1 "stock") business_store).1 =
  deref
    (run (Store.attention_matrix str_lower 0 1 "stock")
       (run (Store.attention_matrix str_lower 0 1 "stock") business_store).2).2
    (run (Store.attention_matrix str_lower 0 1 "stock")
       (run (Store.attention_matrix str_lower 0 1 "stock") business_store).2).1 ∧
  (run (Store.sentence_tokens 0 2 "stock")
     (run (Store.sentence_tokens 0 2 "stock") business_store).2).1 =
  (run (Store.sentence_tokens 0 2 "stock") business_store).1.
Proof.
  assert (business_store !! 0 = Some (PyList (words Business))) as H0 by done.
  assert (business_store !! 1 = Some (PyDict (attention Business))) as H1
    by done.
  assert (business_store !! 2 = Some (PyList ["company"; "profits"; "surged"]))
    as H2 by done.
  destruct (builder_and_renderer_pure str_lower business_store 0 1 2 _ _ _
              "stock" H0 H1 H2) as (Hsame & _ & _ & Htokens & _).
  split; [exact H0|]. split; [exact H1|]. split; [exact H2|].
  split; [exact Hsame|exact Htokens].
Defined.

(** ** Further properties of the program *)

(** The second scenario of the Business example: with "profits" selected
    the attended words are "company", "quarterly" and "strong"; they are
    displayed as [attending], "profits" as [selected], and the other seven
    words as [neutral]. *)
Lemma business_profits_tokens :
  attending_words str_lower "profits" (attention Business) =
    ["company"; "quarterly"; "strong"] ∧
  sentence_tokens (words Business) "profits"
    (attending_words str_lower "profits" (attention Business)) =
    [("Our", neutral); ("company", attending); ("reported", neutral);
     ("strong", attending); ("quarterly", attending); ("profits", selected);
     ("and", neutral); ("the", neutral); ("stock", neutral);
     ("price", neutral); ("surged", neutral)].
Proof. split; by vm_compute. Qed.

(** Every cell of a matrix returned by the builder holds one of the three
    levels 0.1, 0.8 and 1.0, and the matrix has shape (N, N). *)
Lemma attention_matrix_levels (lower : string → string) (words : list string)
    (selected_word : string) (attention_dict : gmap string (list string))
    (matrix : list (list float)) :
  attention_matrix lower words selected_word attention_dict = Ok matrix →
  square (length words) matrix ∧
  ∀ i j v, cell matrix i j = Some v →
           v = 0.1%float ∨ v = 0.8%float ∨ v = 1%float.
Proof.
  intros Hrun.
  destruct (attention_dict !! lower selected_word) as [targets|] eqn:Hkey.
  - assert (selected_word ∈ words) as Hin.
    { destruct (decide (selected_word ∈ words)) as [|Hnin]; [done|].
      rewrite (attention_matrix_key _ _ _ _ _ Hkey) in Hrun.
      by rewrite index_not_elem_of in Hrun. }
    destruct (attention_matrix_spec lower _ _ _ _ Hin Hkey)
      as (matrix' & si & Hrun' & _ & Hsq & Hatt & Hrest).
    rewrite Hrun in Hrun'. injection Hrun' as <-. split; [done|].
    intros i j v Hv. destruct (cell_Some_lt _ _ _ _ _ Hsq Hv) as [Hi Hj].
    destruct (decide (i = si ∧ attended_col words targets j)) as [[-> Hc]|Hn].
    + rewrite (Hatt j Hc) in Hv. right; left. by apply (inj Some).
    + rewrite (Hrest i j Hi Hj Hn) in Hv. apply (inj Some) in Hv as <-.
      destruct (decide (i = j)); auto.
  - rewrite attention_matrix_no_key in Hrun; [|done]. injection Hrun as <-.
    assert (square (length words)
              (fill_diagonal (full (length words) (length words) 0.1%float)
                 1%float)) as Hsq by apply square_fill_diagonal, square_full.
    split; [done|]. intros i j v Hv.
    destruct (cell_Some_lt _ _ _ _ _ Hsq Hv) as [Hi Hj].
    rewrite (base_cell _ _ _ Hi Hj) in Hv. apply (inj Some) in Hv as <-.
    destruct (decide (i = j)); auto.
Qed.

(** The Business example with "surged" selected. *)
Lemma attention_matrix_levels_surged :
  ∃ matrix,
    attention_matrix str_lower (words Business) "surged" (attention Business)
      = Ok matrix ∧
    square (length (words Business)) matrix ∧
    ∀ i j v, cell matrix i j = Some v →
             v = 0.1%float ∨ v = 0.8%float ∨ v = 1%float.
Proof.
  destruct (attention_matrix_total str_lower (words Business) "surged"
              (attention Business)) as (matrix & Hrun & _); [compute_done|].
  exists matrix. split; [exact Hrun|].
  exact (attention_matrix_levels str_lower _ _ _ _ Hrun).
Defined.

(** For any sentence and attention mapping, a word offered by the word
    selector never makes [create_simple_heatmap] raise: the heatmap panel
    shows a chart whose figure has the sentence on both axes and the selected
    word in its title, and the handler of lines 156-158 is not reached. *)
Lemma selectable_word_chart (lower : string → string) (words : list string)
    (attention_dict : gmap string (list string)) (w : string) :
  w ∈ available_words lower words attention_dict →
  ∃ matrix,
    attention_matrix lower words w attention_dict = Ok matrix ∧
    heatmap_panel lower words w attention_dict =
      plotly_chart (Figure matrix words words
                      ("Attention Pattern for '" +:+ w +:+ "'") 400 500).
Proof.
  intros [_ Hw]%list_elem_of_filter.
  destruct (attention_matrix_total lower _ _ attention_dict Hw)
    as (matrix & Hrun & _).
  exists matrix. split; [done|].
  unfold heatmap_panel, create_simple_heatmap. by rewrite Hrun.
Qed.

(** The Technology example with "model" selected. *)
Lemma selectable_word_chart_model :
  "model" ∈ available_words str_lower (words Technology)
              (attention Technology) ∧
  ∃ matrix,
    attention_matrix str_lower (words Technology) "model"
      (attention Technology) = Ok matrix ∧
    heatmap_panel str_lower (words Technology) "model" (attention Technology) =
      plotly_chart (Figure matrix (words Technology) (words Technology)
                      ("Attention Pattern for '" +:+ "model" +:+ "'") 400 500).
Proof.
  assert ("model" ∈ available_words str_lower (words Technology)
                      (attention Technology)) as Hw by compute_done.
  split; [exact Hw|].
  exact (selectable_word_chart str_lower (words Technology)
           (attention Technology) "model" Hw).
Defined.

(** ** Exceptions of the builder *)

(** The builder raises in one situation only: the selected word is not in
    the sentence while its lowercase form is a key of the attention mapping.
    The exception is then the [ValueError] of [words.index]; the subscripts
    of lines 86 and 89 never raise [KeyError] or [IndexError]. *)
Lemma builder_raises_iff (lower : string → string) (words : list string)
    (selected_word : string) (attention_dict : gmap string (list string))
    (e : exception) :
  attention_matrix lower words selected_word attention_dict = Raise e ↔
    e = ValueError ∧ (selected_word ∉ words) ∧
    is_Some (attention_dict !! lower selected_word).
Proof.
  split.
  - intros Hrun.
    destruct (attention_dict !! lower selected_word) as [targets|] eqn:Hkey.
    + destruct (decide (selected_word ∈ words)) as [Hin|Hnin].
      * destruct (attention_matrix_total lower _ _ attention_dict Hin)
          as (matrix & Hok & _). by rewrite Hok in Hrun.
      * rewrite (attention_matrix_key _ _ _ _ _ Hkey) in Hrun.
        rewrite index_not_elem_of in Hrun; [|done]. simpl in Hrun.
        injection Hrun as <-. split; [done|]. split; [done|]. by eexists.
    + by rewrite attention_matrix_no_key in Hrun.
  - intros (-> & Hnin & [targets Hkey]).
    rewrite (attention_matrix_key _ _ _ _ _ Hkey).
    by rewrite index_not_elem_of.
Qed.

(** ** The rows of the matrix *)

Lemma attended_ne_base : 0.8%float ≠ 0.1%float.
Proof.
  intros H. apply (f_equal (λ x, PrimFloat.ltb x 0.5)) in H.
  vm_compute in H. done.
Qed.

(** Only the row of the selected word can differ from the matrix that holds
    1.0 on the diagonal and 0.1 elsewhere: every other row is left as
    [np.full] and [np.fill_diagonal] made it, so the matrix is in general
    not symmetric. *)
Lemma other_rows_untouched (lower : string → string) (words : list string)
    (selected_word : string) (attention_dict : gmap string (list string))
    (matrix : list (list float)) (si i j : nat) :
  attention_matrix lower words selected_word attention_dict = Ok matrix →
  index words selected_word = Ok si →
  i ≠ si → i < length words → j < length words →
  cell matrix i j = Some (if decide (i = j) then 1%float else 0.1%float).
Proof.
  intros Hrun Hsi Hne Hi Hj.
  destruct (attention_dict !! lower selected_word) as [targets|] eqn:Hkey.
  - assert (selected_word ∈ words) as Hin.
    { apply index_Ok in Hsi as [Hsi _]. apply list_elem_of_lookup. eauto. }
    destruct (attention_matrix_spec lower _ _ _ _ Hin Hkey)
      as (matrix' & si' & Hrun' & Hsi' & _ & _ & Hrest).
    rewrite Hrun in Hrun'. injection Hrun' as <-.
    rewrite Hsi in Hsi'. injection Hsi' as <-.
    apply Hrest; [done|done|]. by intros [? _].
  - rewrite attention_matrix_no_key in Hrun; [|done]. injection Hrun as <-.
    by apply base_cell.
Qed.

(** The Business example with "stock" selected: the row of "company". *)
Lemma other_rows_untouched_company :
  (∃ matrix,
     attention_matrix str_lower (words Business) "stock" (attention Business)
       = Ok matrix ∧
     index (words Business) "stock" = Ok 8 ∧ 1 ≠ 8 ∧
     1 < length (words Business) ∧ 8 < length (words Business) ∧
     cell matrix 1 8 = Some 0.1%float).
Proof.
  destruct (attention_matrix_total str_lower (words Business) "stock"
              (attention Business)) as (matrix & Hrun & _); [compute_done|].
  assert (index (words Business) "stock" = Ok 8) as Hsi by done.
  assert (1 ≠ 8) as Hne by done.
  assert (1 < length (words Business)) as Hi by (simpl; lia).
  assert (8 < length (words Business)) as Hj by (simpl; lia).
  exists matrix. do 5 (split; [assumption|]).
  exact (other_rows_untouched str_lower _ _ _ _ 8 1 8 Hrun Hsi Hne Hi Hj).
Defined.

(** ** What the matrix depends on *)

Lemma matrix_ext n (m1 m2 : list (list float)) :
  square n m1 → square n m2 →
  (∀ i j, i < n → j < n → cell m1 i j = cell m2 i j) → m1 = m2.
Proof.
  intros [Hlen1 Hrows1] [Hlen2 Hrows2] Hcells.
  apply list_eq. intros i.
  destruct (decide (i < n)) as [Hi|Hi].
  - destruct (lookup_lt_is_Some_2 m1 i) as [row1 Hrow1]; [lia|].
    destruct (lookup_lt_is_Some_2 m2 i) as [row2 Hrow2]; [lia|].
    rewrite Hrow1 Hrow2. f_equal.
    assert (length row1 = n) as Hn1.
    { apply Hrows1, list_elem_of_lookup. eauto. }
    assert (length row2 = n) as Hn2.
    { apply Hrows2, list_elem_of_lookup. eauto. }
    apply list_eq. intros j.
    destruct (decide (j < n)) as [Hj|Hj].
    + specialize (Hcells i j Hi Hj). unfold cell in Hcells.
      by rewrite Hrow1 Hrow2 in Hcells.
    + rewrite !lookup_ge_None_2; [done|lia|lia].
  - rewrite !lookup_ge_None_2; [done|lia|lia].
Qed.

Lemma attended_col_subset words t1 t2 j :
  (∀ x, x ∈ words → x ∈ t1 → x ∈ t2) →
  attended_col words t1 j → attended_col words t2 j.
Proof.
  intros Hsub (x & Hx & Hj)%attended_col_iff. apply attended_col_iff.
  exists x. split; [|done]. apply Hsub; [|done].
  apply index_Ok in Hj as [Hj _]. apply list_elem_of_lookup. eauto.
Qed.

(** The outcome of the builder depends on the attended list only through
    the set of its words that occur in the sentence: the order of the list,
    repeated entries and entries that are not sentence words make no
    difference. *)
Lemma attended_set_determines_matrix (lower : string → string)
    (words : list string) (selected_word : string)
    (attention_dict : gmap string (list string))
    (targets targets' : list string) :
  attention_dict !! lower selected_word = Some targets →
  (∀ x, x ∈ words → (x ∈ targets ↔ x ∈ targets')) →
  attention_matrix lower words selected_word attention_dict =
    attention_matrix lower words selected_word
      (<[lower selected_word := targets']> attention_dict).
Proof.
  intros Hkey Hsame.
  assert ((<[lower selected_word := targets']> attention_dict)
            !! lower selected_word = Some targets') as Hkey'
    by apply lookup_insert_eq.
  destruct (decide (selected_word ∈ words)) as [Hin|Hnin].
  - destruct (attention_matrix_spec lower _ _ _ _ Hin Hkey)
      as (m1 & si & -> & Hsi & Hsq1 & Hatt1 & Hrest1).
    destruct (attention_matrix_spec lower _ _ _ _ Hin Hkey')
      as (m2 & si' & -> & Hsi' & Hsq2 & Hatt2 & Hrest2).
    rewrite Hsi in Hsi'. injection Hsi' as <-. f_equal.
    apply (matrix_ext (length words)); [done|done|].
    intros i j Hi Hj.
    destruct (decide (i = si ∧ attended_col words targets j)) as [[-> Hc]|Hn].
    + rewrite (Hatt1 j Hc). symmetry. apply Hatt2.
      eapply attended_col_subset; [|done]. intros x Hx. by apply Hsame.
    + rewrite (Hrest1 i j Hi Hj Hn). symmetry. apply Hrest2; [done|done|].
      intros [-> Hc]. apply Hn. split; [done|].
      eapply attended_col_subset; [|done]. intros x Hx. by apply Hsame.
  - rewrite (attention_matrix_key _ _ _ _ _ Hkey).
    rewrite (attention_matrix_key _ _ _ _ _ Hkey').
    by rewrite index_not_elem_of.
Qed.

(** Reordering and repeating the attended words of "stock", and adding a
    word that is not in the Business sentence. *)
Lemma attended_set_determines_matrix_stock :
  attention Business !! str_lower "stock" =
    Some ["company"; "profits"; "surged"] ∧
  (∀ x, x ∈ words Business →
        (x ∈ ["company"; "profits"; "surged"] ↔
         x ∈ ["surged"; "dividend"; "company"; "surged"; "profits"])) ∧
  attention_matrix str_lower (words Business) "stock" (attention Business) =
    attention_matrix str_lower (words Business) "stock"
      (<[str_lower "stock" :=
           ["surged"; "dividend"; "company"; "surged"; "profits"] ]>
         (attention Business)).
Proof.
  assert (attention Business !! str_lower "stock" =
            Some ["company"; "profits"; "surged"]) as Hkey by by vm_compute.
  assert (∀ x, x ∈ words Business →
               (x ∈ ["company"; "profits"; "surged"] ↔
                x ∈ ["surged"; "dividend"; "company"; "surged"; "profits"]))
    as Hsame.
  { intros x Hx. simpl in Hx. rewrite !elem_of_cons !elem_of_nil in Hx.
    rewrite !elem_of_cons !elem_of_nil.
    split; [intros [->|[->|[->|[]]]]; tauto|].
    intros [->|[->|[->|[->|[->|[]]]]]]; try tauto.
    exfalso. destruct Hx as [Hx|Hx]; [done|].
    repeat (destruct Hx as [Hx|Hx]; [done|]). done. }
  split; [exact Hkey|]. split; [exact Hsame|].
  exact (attended_set_determines_matrix str_lower (words Business) "stock"
           (attention Business) _ _ Hkey Hsame).
Defined.

(** ** The heatmap and the tokens *)

(** For a sentence word other than the selected one, at the position of its
    first occurrence, the token is displayed as [attending] exactly when the
    cell of that column in the row of the selected word holds 0.8. *)
Lemma token_matches_heatmap (lower : string → string) (words : list string)
    (selected_word : string) (attention_dict : gmap string (list string))
    (targets : list string) (word : string) (j : nat) :
  selected_word ∈ words →
  attention_dict !! lower selected_word = Some targets →
  index words word = Ok j → word ≠ selected_word →
  ∃ matrix si,
    attention_matrix lower words selected_word attention_dict = Ok matrix ∧
    index words selected_word = Ok si ∧
    (sentence_tokens words selected_word
       (attending_words lower selected_word attention_dict) !! j =
       Some (word, attending) ↔
     cell matrix si j = Some 0.8%float).
Proof.
  intros Hin Hkey Hj Hne.
  destruct (attention_matrix_spec lower _ _ _ _ Hin Hkey)
    as (matrix & si & Hrun & Hsi & _ & Hatt & Hrest).
  exists matrix, si. split; [done|]. split; [done|].
  pose proof (index_Ok _ _ _ Hj) as [Hword _].
  rewrite sentence_tokens_map list_lookup_fmap Hword /=.
  unfold attending_words. rewrite Hkey /=.
  split.
  - intros Htok. assert (classify selected_word targets word = attending)
      as [_ Hmem]%classify_attending by congruence.
    apply Hatt, attended_col_iff. eauto.
  - intros Hcell. do 2 f_equal. apply classify_attending. split; [done|].
    destruct (decide (attended_col words targets j)) as [Hc|Hc].
    + apply attended_col_word in Hc as (t & Ht & Hjt). by simplify_eq.
    + rewrite Hrest in Hcell.
      * apply (inj Some) in Hcell.
        destruct (decide (si = j)); exfalso;
          [by apply attended_ne_self|by apply attended_ne_base].
      * by eapply index_lt.
      * by eapply lookup_lt_Some.
      * by intros [_ ?].
Qed.

(** "quarterly" is attended by "profits" in the Business example. *)
Lemma token_matches_heatmap_quarterly :
  "profits" ∈ words Business ∧
  attention Business !! str_lower "profits" =
    Some ["company"; "quarterly"; "strong"] ∧
  index (words Business) "quarterly" = Ok 4 ∧ "quarterly" ≠ "profits" ∧
  ∃ matrix si,
    attention_matrix str_lower (words Business) "profits" (attention Business)
      = Ok matrix ∧
    index (words Business) "profits" = Ok si ∧
    (sentence_tokens (words Business) "profits"
       (attending_words str_lower "profits" (attention Business)) !! 4 =
       Some ("quarterly", attending) ↔
     cell matrix si 4 = Some 0.8%float).
Proof.
  assert ("profits" ∈ words Business) as Hin by compute_done.
  assert (attention Business !! str_lower "profits" =
            Some ["company"; "quarterly"; "strong"]) as Hkey by by vm_compute.
  assert (index (words Business) "quarterly" = Ok 4) as Hj by done.
  assert ("quarterly" ≠ "profits") as Hne by done.
  do 4 (split; [assumption|]).
  exact (token_matches_heatmap str_lower (words Business) "profits"
           (attention Business) _ "quarterly" 4 Hin Hkey Hj Hne).
Defined.

(** When a sentence repeats a word, only the column of its first occurrence
    can be marked: at a later occurrence the cell in the row of the selected
    word keeps the baseline 0.1, although the token of that occurrence is
    displayed as [attending] whenever the word is attended. *)
Lemma repeated_word_column (lower : string → string) (words : list string)
    (selected_word : string) (attention_dict : gmap string (list string))
    (targets : list string) (word : string) (first later : nat) :
  selected_word ∈ words →
  attention_dict !! lower selected_word = Some targets →
  index words word = Ok first → words !! later = Some word → later ≠ first →
  ∃ matrix si,
    attention_matrix lower words selected_word attention_dict = Ok matrix ∧
    index words selected_word = Ok si ∧
    cell matrix si later = Some 0.1%float ∧
    (word ∈ targets → word ≠ selected_word →
     sentence_tokens words selected_word
       (attending_words lower selected_word attention_dict) !! later =
       Some (word, attending)).
Proof.
  intros Hin Hkey Hfirst Hlater Hne.
  destruct (attention_matrix_spec lower _ _ _ _ Hin Hkey)
    as (matrix & si & Hrun & Hsi & _ & _ & Hrest).
  exists matrix, si. split; [done|]. split; [done|].
  assert (∀ x, words !! later = Some x → index words x ≠ Ok later) as Hnot.
  { intros x Hx Hidx. rewrite Hlater in Hx. injection Hx as <-.
    rewrite Hfirst in Hidx. injection Hidx as <-. done. }
  split.
  - rewrite Hrest.
    + destruct (decide (si = later)) as [->|]; [|done].
      destruct (Hnot selected_word); [|done].
      by apply index_Ok in Hsi as [? _].
    + by eapply index_lt.
    + by eapply lookup_lt_Some.
    + intros [_ (t & Ht & Hidx)%attended_col_iff].
      eapply Hnot; [|done]. by apply index_Ok in Hidx as [? _].
  - intros Hmem Hsel.
    rewrite sentence_tokens_map list_lookup_fmap Hlater /=.
    do 2 f_equal. apply classify_attending. split; [done|].
    unfold attending_words. by rewrite Hkey.
Qed.

(** A sentence that repeats "the". *)
Lemma repeated_word_column_the :
  "cat" ∈ ["the"; "cat"; "saw"; "the"; "dog"] ∧
  ({["cat" := ["the"; "dog"] ]} : gmap string (list string))
    !! str_lower "cat" = Some ["the"; "dog"] ∧
  index ["the"; "cat"; "saw"; "the"; "dog"] "the" = Ok 0 ∧
  ["the"; "cat"; "saw"; "the"; "dog"] !! 3 = Some "the" ∧ 3 ≠ 0 ∧
  ∃ matrix si,
    attention_matrix str_lower ["the"; "cat"; "saw"; "the"; "dog"] "cat"
      {["cat" := ["the"; "dog"] ]} = Ok matrix ∧
    index ["the"; "cat"; "saw"; "the"; "dog"] "cat" = Ok si ∧
    cell matrix si 3 = Some 0.1%float ∧
    ("the" ∈ ["the"; "dog"] → "the" ≠ "cat" →
     sentence_tokens ["the"; "cat"; "saw"; "the"; "dog"] "cat"
       (attending_words str_lower "cat" {["cat" := ["the"; "dog"] ]}) !! 3 =
       Some ("the", attending)).
Proof.
  assert ("cat" ∈ ["the"; "cat"; "saw"; "the"; "dog"]) as Hin by compute_done.
  assert (({["cat" := ["the"; "dog"] ]} : gmap string (list string))
            !! str_lower "cat" = Some ["the"; "dog"]) as Hkey by by vm_compute.
  assert (index ["the"; "cat"; "saw"; "the"; "dog"] "the" = Ok 0) as Hfirst
    by done.
  assert (["the"; "cat"; "saw"; "the"; "dog"] !! 3 = Some "the") as Hlater
    by done.
  assert (3 ≠ 0) as Hne by done.
  do 5 (split; [assumption|]).
  exact (repeated_word_column str_lower _ "cat" _ _ "the" 0 3
           Hin Hkey Hfirst Hlater Hne).
Defined.

(** ** Keys and letter case *)

Lemma ascii_lower_idemp c : ascii_lower (ascii_lower c) = ascii_lower c.
Proof. by destruct c as [[] [] [] [] [] [] [] []]. Qed.

Lemma str_lower_idemp s : str_lower (str_lower s) = str_lower s.
Proof.
  induction s as [|c s IH]; [done|]. simpl. by rewrite ascii_lower_idemp IH.
Qed.

(** Every lookup in the attention mapping uses a lowercase form (lines 84,
    86, 118 and 126).  When lowering is idempotent, a key that is not its
    own lowercase form is therefore never found: deleting it changes neither
    the words offered by the selector, nor the attended words, nor the
    outcome of the builder, whatever word is selected. *)
Lemma unlowered_key_is_dead (lower : string → string) (key : string)
    (words : list string) (selected_word : string)
    (attention_dict : gmap string (list string)) :
  (∀ s, lower (lower s) = lower s) → lower key ≠ key →
  available_words lower words (delete key attention_dict) =
    available_words lower words attention_dict ∧
  attending_words lower selected_word (delete key attention_dict) =
    attending_words lower selected_word attention_dict ∧
  attention_matrix lower words selected_word (delete key attention_dict) =
    attention_matrix lower words selected_word attention_dict.
Proof.
  intros Hidemp Hkey.
  assert (∀ s, delete key attention_dict !! lower s =
               attention_dict !! lower s) as Hlookup.
  { intros s. apply lookup_delete_ne. intros ->. by rewrite Hidemp in Hkey. }
  split; [|split].
  - unfold available_words. apply list_filter_iff. intros w.
    by rewrite Hlookup.
  - unfold attending_words. by rewrite Hlookup.
  - apply attention_matrix_ext. apply Hlookup.
Qed.

(** The key "AI" of the Technology example. *)
Lemma unlowered_key_is_dead_AI :
  (∀ s, str_lower (str_lower s) = str_lower s) ∧ str_lower "AI" ≠ "AI" ∧
  available_words str_lower (words Technology)
    (delete "AI" (attention Technology)) =
    available_words str_lower (words Technology) (attention Technology) ∧
  attending_words str_lower "AI" (delete "AI" (attention Technology)) =
    attending_words str_lower "AI" (attention Technology) ∧
  attention_matrix str_lower (words Technology) "AI"
    (delete "AI" (attention Technology)) =
    attention_matrix str_lower (words Technology) "AI" (attention Technology).
Proof.
  assert (str_lower "AI" ≠ "AI") as Hkey by done.
  split; [exact str_lower_idemp|]. split; [exact Hkey|].
  exact (unlowered_key_is_dead str_lower "AI" (words Technology) "AI"
           (attention Technology) str_lower_idemp Hkey).
Defined.

(** ** The markup *)

(** The loop of lines 128-135 appends to the markup built so far. *)
Lemma sentence_html_loop (words : list string) (selected_word : string)
    (attending_words : list string) (html : string) :
  foldl (λ html word,
           html +:+ span (classify selected_word attending_words word) word)
        html words =
    html +:+ sentence_html words selected_word attending_words.
Proof.
  unfold sentence_html. revert html.
  induction words as [|w rest IH]; intros html; simpl.
  - by rewrite append_empty_r.
  - rewrite IH (IH ("" +:+ _)). by rewrite append_assoc.
Qed.

(** The markup of a sentence is the markup of its parts, one after the
    other: the style of a word does not depend on its position or on its
    neighbours. *)
Lemma sentence_html_app (words1 words2 : list string) (selected_word : string)
    (attending_words : list string) :
  sentence_html (words1 ++ words2) selected_word attending_words =
    sentence_html words1 selected_word attending_words +:+
    sentence_html words2 selected_word attending_words.
Proof.
  unfold sentence_html at 1. rewrite foldl_app.
  by rewrite sentence_html_loop.
Qed.

(** ** One run of [main] *)

Lemma examples_getitem_Ok examples name :
  name ∈ examples.*1 → is_Ok (examples_getitem examples name).
Proof.
  induction examples as [|[key data] rest IH]; simpl.
  { by intros ?%elem_of_nil. }
  intros Hin. case_decide as Hkey; [by eexists|].
  apply IH. apply elem_of_cons in Hin as [Heq|Hin]; [|done].
  by destruct Hkey.
Qed.

Lemma examples_getitem_elem_of examples name data :
  examples_getitem examples name = Ok data → (name, data) ∈ examples.
Proof.
  induction examples as [|[key data'] rest IH]; simpl; [done|].
  case_decide as Hkey.
  - intros [= <-]. subst. apply elem_of_cons. by left.
  - intros Hget. apply elem_of_cons. right. by apply IH.
Qed.

Lemma examples_getitem_Raise examples name e :
  examples_getitem examples name = Raise e → e = KeyError ∧ name ∉ examples.*1.
Proof.
  induction examples as [|[key data] rest IH]; simpl.
  { intros [= <-]. split; [done|]. apply not_elem_of_nil. }
  case_decide as Hkey; [done|]. intros [-> Hnin]%IH. split; [done|].
  apply not_elem_of_cons. split; [|done]. by intros ->.
Qed.

Section run.
Variable lower : string → string.
Variable str : exception → string.

(** A run of [main] ends with an exception in two situations only: the
    example name is not a key of [EXAMPLES] ([KeyError] at line 113), or the
    word selector returned [None] ([AttributeError] at line 126).  In
    particular, for an example of the catalog and any selected string, an
    exception of [create_simple_heatmap] never ends the run. *)
Lemma main_exception (selected_example : string)
    (selected_word : option string) (e : script_exception) :
  (main lower str selected_example selected_word).2 = Some e ↔
    ((selected_example ∉ EXAMPLES.*1) ∧ e = Uncaught KeyError) ∨
    (selected_example ∈ EXAMPLES.*1 ∧ selected_word = None ∧
     e = AttributeError).
Proof.
  unfold main.
  destruct (examples_getitem EXAMPLES selected_example) as [data|e']
    eqn:Hget.
  - assert (selected_example ∈ EXAMPLES.*1) as Hin.
    { apply examples_getitem_elem_of in Hget.
      apply list_elem_of_fmap. by exists (selected_example, data). }
    destruct selected_word as [w|]; simpl.
    + split; [done|]. by intros [[? _]|(_ & ? & _)].
    + split.
      * intros [= <-]. by right.
      * intros [[? _]|(_ & _ & ->)]; done.
  - apply examples_getitem_Raise in Hget as [-> Hnin]. simpl. split.
    + intros [= <-]. by left.
    + intros [[_ ->]|[? _]]; done.
Qed.

Lemma insight_box_elem_of selected_word attending element :
  element ∈ insight_box selected_word attending →
  ∃ body, element = (page, st_markdown body true).
Proof.
  destruct attending as [|a rest]; simpl; [by intros ?%elem_of_nil|].
  intros ->%list_elem_of_singleton. by eexists.
Qed.

Lemma attention_list_elem_of attending element :
  element ∈ attention_list attending →
  ∃ text, element = (col2, st_write text).
Proof.
  destruct attending as [|a rest].
  - intros ->%list_elem_of_singleton. by eexists.
  - unfold attention_list. intros (word & -> & _)%list_elem_of_fmap.
    by eexists.
Qed.

(** What [main] displays for an example of the catalog and a selected
    string. *)
Lemma main_elements selected_example data w element :
  examples_getitem EXAMPLES selected_example = Ok data →
  element ∈ (main lower str selected_example (Some w)).1 →
  element = (sidebar, st_selectbox "Select Word:"
                        (available_words lower (words data) (attention data))) ∨
  element ∈ heatmap_elements str
              (heatmap_panel lower (words data) w (attention data)) ∨
  (∀ label options, element = (sidebar, st_selectbox label options) →
                    label = "Choose Example:") ∧
  (∀ fig flag, element ≠ (col1, st_plotly_chart fig flag)) ∧
  (∀ text, element ≠ (col1, st_error text)).
Proof.
  intros Hget. unfold main. rewrite Hget. cbn [fst].
  rewrite !elem_of_app !elem_of_cons !elem_of_nil.
  intros Hin.
  repeat match type of Hin with
         | _ ∨ _ => destruct Hin as [Hin|Hin]
         | False => destruct Hin
         end;
    first [ by left
          | by right; left
          | right; right;
            first [ apply insight_box_elem_of in Hin as [body ->]
                  | apply attention_list_elem_of in Hin as [text ->]
                  | subst element ];
            (split; [by intros ? ? [= <- _]|by split]) ].
Qed.

(** Whatever option of the word selector is chosen, the run completes, the
    heatmap column shows a chart of the sentence, and no error message is
    displayed. *)
Lemma selector_option_gives_chart (selected_example w : string)
    (options : list string) :
  (sidebar, st_selectbox "Select Word:" options) ∈
    (main lower str selected_example (Some w)).1 →
  w ∈ options →
  (main lower str selected_example (Some w)).2 = None ∧
  (∃ data matrix,
     (selected_example, data) ∈ EXAMPLES ∧
     attention_matrix lower (words data) w (attention data) = Ok matrix ∧
     (col1, st_plotly_chart
              (Figure matrix (words data) (words data)
                 ("Attention Pattern for '" +:+ w +:+ "'") 400 500) true) ∈
       (main lower str selected_example (Some w)).1) ∧
  (∀ text, (col1, st_error text) ∉
             (main lower str selected_example (Some w)).1).
Proof.
  intros Hsel Hw.
  destruct (examples_getitem EXAMPLES selected_example) as [data|e] eqn:Hget.
  2:{ exfalso. unfold main in Hsel. rewrite Hget in Hsel. cbn [fst] in Hsel.
      rewrite !elem_of_cons elem_of_nil in Hsel.
      by destruct Hsel as [?|[?|[?|[?|[]]]]]. }
  assert (options = available_words lower (words data) (attention data)) as ->.
  { destruct (main_elements _ _ _ _ Hget Hsel) as [[= ->]|[Hin|[Hlabel _]]].
    - done.
    - destruct (heatmap_panel _ _ _ _); simpl in Hin;
        rewrite !elem_of_cons elem_of_nil in Hin;
        by destruct Hin as [?|[?|[]]] || by destruct Hin as [?|[]].
    - by specialize (Hlabel _ _ eq_refl). }
  pose proof Hw as [_ Hin]%list_elem_of_filter.
  destruct (attention_matrix_total lower _ _ (attention data) Hin)
    as (matrix & Hrun & _).
  assert (heatmap_panel lower (words data) w (attention data) =
          plotly_chart (Figure matrix (words data) (words data)
                          ("Attention Pattern for '" +:+ w +:+ "'") 400 500))
    as Hpanel.
  { unfold heatmap_panel, create_simple_heatmap. by rewrite Hrun. }
  split; [|split].
  - unfold main. by rewrite Hget.
  - exists data, matrix. split; [by apply examples_getitem_elem_of|].
    split; [done|]. unfold main. rewrite Hget Hpanel.
    cbn [fst heatmap_elements]. rewrite !elem_of_app !elem_of_cons.
    solve [find_disjunct].
  - intros text Herr.
    destruct (main_elements _ _ _ _ Hget Herr) as [?|[Hel|(_ & _ & Hno)]].
    + done.
    + rewrite Hpanel in Hel. simpl in Hel.
      by apply list_elem_of_singleton in Hel.
    + by destruct (Hno text).
Qed.

End run.

Lemma main_word_selector (lower : string → string) (str : exception → string)
    selected_example data w :
  examples_getitem EXAMPLES selected_example = Ok data →
  (sidebar, st_selectbox "Select Word:"
              (available_words lower (words data) (attention data))) ∈
    (main lower str selected_example (Some w)).1.
Proof.
  intros Hget. unfold main. rewrite Hget. cbn [fst].
  rewrite !elem_of_app !elem_of_cons. solve [find_disjunct].
Qed.

(** The Business example with "surged" chosen in the word selector. *)
Lemma selector_option_gives_chart_surged :
  (sidebar, st_selectbox "Select Word:"
              ["company"; "profits"; "stock"; "surged"]) ∈
    (main str_lower (λ _, "") "Business" (Some "surged")).1 ∧
  "surged" ∈ ["company"; "profits"; "stock"; "surged"] ∧
  (main str_lower (λ _, "") "Business" (Some "surged")).2 = None ∧
  (∀ text, (col1, st_error text) ∉
             (main str_lower (λ _, "") "Business" (Some "surged")).1).
Proof.
  assert ((sidebar, st_selectbox "Select Word:"
                      ["company"; "profits"; "stock"; "surged"]) ∈
            (main str_lower (λ _, "") "Business" (Some "surged")).1) as Hsel.
  { exact (main_word_selector str_lower (λ _, "") "Business" Business "surged"
             eq_refl). }
  assert ("surged" ∈ ["company"; "profits"; "stock"; "surged"]) as Hw
    by compute_done.
  destruct (selector_option_gives_chart str_lower (λ _, "") "Business"
              "surged" _ Hsel Hw) as (Hend & _ & Hno).
  split; [exact Hsel|]. split; [exact Hw|]. split; [exact Hend|exact Hno].
Defined.
